(** * product_lister: the three catalogue adapters and their helpers

    A shallow embedding of [src/product_lister.py]: the WooCommerce, Shopify
    and generic-CSS scrapers, the pager reader [_last_page] and the page URL
    builder [_next_page_url].

    Conventions of the model.
    - A Python [str] is a Rocq [string] holding its UTF-8 encoding.  The
      character classes of the source ([\d], [str.isdigit], [str.strip]) are
      taken on ASCII characters; bytes at or above 128 belong to none of them.
    - A Python [float] or [int] price is the rational number it denotes
      ([Q]); rounding to a double is not modelled.
    - A raised exception is a value [Raise e]; [try ... except Exception] is
      a match on it.
    - The network is a value of type [web]: what [requests.get] followed by
      the BeautifulSoup or JSON decoder gives for each URL. *)

From Stdlib Require Import String Ascii List ZArith QArith Bool Lia DecimalString.
From Stdlib Require Import DecimalPos.
Import ListNotations.
Local Close Scope Q_scope.
Local Open Scope string_scope.
Local Open Scope list_scope.
Set Warnings "-register-all".

(** ** Exceptions and results *)

(** The exceptions the adapters can meet, by where they come from:
    [TransportError] is raised by [requests.get] (timeout, connection error),
    [JSONDecodeError] by [Response.json], and [ExtractError] stands for the
    [AttributeError], [KeyError], [IndexError], [TypeError] and [ValueError]
    raised while fields are read out of a parsed unit. *)
Inductive exn : Type :=
| TransportError
| JSONDecodeError
| ExtractError.

Inductive result (A : Type) : Type :=
| Ok (a : A)
| Raise (e : exn).
Arguments Ok {A} a.
Arguments Raise {A} e.

Definition bind {A B : Type} (c : result A) (k : A -> result B) : result B :=
  match c with
  | Ok a => k a
  | Raise e => Raise e
  end.

Notation "x <- c ;; k" := (bind c (fun x => k))
  (at level 61, c at next level, right associativity).

Fixpoint mapM {A B : Type} (f : A -> result B) (l : list A) : result (list B) :=
  match l with
  | [] => Ok []
  | a :: l' => b <- f a ;; bs <- mapM f l' ;; Ok (b :: bs)
  end.

(** ** Python strings *)

Definition is_digit (c : ascii) : bool :=
  let n := nat_of_ascii c in (48 <=? n)%nat && (n <=? 57)%nat.

(** The ASCII characters [str.strip()] removes: TAB, LF, VT, FF, CR,
    FS, GS, RS, US and space. *)
Definition is_space (c : ascii) : bool :=
  let n := nat_of_ascii c in
  ((9 <=? n)%nat && (n <=? 13)%nat) || ((28 <=? n)%nat && (n <=? 32)%nat).

Definition is_empty (s : string) : bool :=
  match s with
  | EmptyString => true
  | String _ _ => false
  end.

Fixpoint all_chars (p : ascii -> bool) (s : string) : bool :=
  match s with
  | EmptyString => true
  | String c r => p c && all_chars p r
  end.

Fixpoint take_while (p : ascii -> bool) (s : string) : string :=
  match s with
  | EmptyString => EmptyString
  | String c r => if p c then String c (take_while p r) else EmptyString
  end.

Fixpoint drop_while (p : ascii -> bool) (s : string) : string :=
  match s with
  | EmptyString => EmptyString
  | String c r => if p c then drop_while p r else s
  end.

Definition lstrip (s : string) : string := drop_while is_space s.

Fixpoint rstrip (s : string) : string :=
  match s with
  | EmptyString => EmptyString
  | String c r =>
      let r' := rstrip r in
      if is_space c && is_empty r' then EmptyString else String c r'
  end.

(** [s.strip()] *)
Definition strip (s : string) : string := rstrip (lstrip s).

(** [s.isdigit()]: non-empty and made of digits only. *)
Definition isdigit (s : string) : bool :=
  negb (is_empty s) && all_chars is_digit s.

Definition digit_value (c : ascii) : Z := Z.of_nat (nat_of_ascii c - 48).

Fixpoint int_acc (acc : Z) (s : string) : Z :=
  match s with
  | EmptyString => acc
  | String c r => int_acc (10 * acc + digit_value c) r
  end.

(** [int(s)] for a string that passed [isdigit]. *)
Definition int (s : string) : Z := int_acc 0 s.

(** [str(n)] for an [int]. *)
Definition str (n : Z) : string := NilZero.string_of_int (Z.to_int n).

(** [s.replace(c, "")] for a one-character [c]. *)
Fixpoint remove_char (x : ascii) (s : string) : string :=
  match s with
  | EmptyString => EmptyString
  | String c r => if Ascii.eqb c x then remove_char x r else String c (remove_char x r)
  end.

(** [s.replace(x, y)] for one-character [x] and [y]. *)
Fixpoint replace_char (x y : ascii) (s : string) : string :=
  match s with
  | EmptyString => EmptyString
  | String c r => String (if Ascii.eqb c x then y else c) (replace_char x y r)
  end.

(** [sub in s] *)
Fixpoint contains (sub s : string) : bool :=
  prefix sub s ||
  match s with
  | EmptyString => false
  | String _ r => contains sub r
  end.

(** The pieces of [s] between the characters satisfying [p]. *)
Fixpoint split_by (p : ascii -> bool) (s : string) : list string :=
  match s with
  | EmptyString => [EmptyString]
  | String c r =>
      if p c then EmptyString :: split_by p r
      else match split_by p r with
           | [] => [String c EmptyString]
           | h :: t => String c h :: t
           end
  end.

(** [s.split(sep)] for a one-character separator. *)
Definition split_on (sep : ascii) (s : string) : list string :=
  split_by (fun c => Ascii.eqb c sep) s.

(** [s.partition(sep)]: the text before the first [sep] and, when there is
    one, the text after it. *)
Fixpoint partition (sep : ascii) (s : string) : string * option string :=
  match s with
  | EmptyString => (EmptyString, None)
  | String c r =>
      if Ascii.eqb c sep then (EmptyString, Some r)
      else let (a, b) := partition sep r in (String c a, b)
  end.

(** [sep.join(l)] *)
Fixpoint join (sep : ascii) (l : list string) : string :=
  match l with
  | [] => EmptyString
  | x :: l' =>
      match l' with
      | [] => x
      | _ :: _ => x ++ String sep (join sep l')
      end
  end.

(** ** Price text: [float(re.search(r"[\d,.]+", text).group().replace(",", ""))] *)

(** The character class [[\d,.]]. *)
Definition price_char (c : ascii) : bool :=
  is_digit c || Ascii.eqb c "," || Ascii.eqb c ".".

(** [re.search(r"[\d,.]+", text)]: the leftmost, longest run of class
    characters; [None] when the text has none. *)
Definition re_search_price (text : string) : option string :=
  match drop_while (fun c => negb (price_char c)) text with
  | EmptyString => None
  | String c r => Some (take_while price_char (String c r))
  end.

Definition pow10 (n : nat) : positive := Nat.iter n (Pos.mul 10) 1%positive.

(** [float(s)] on the strings that reach it here, made of digits and dots:
    digits with at most one dot and at least one digit denote a decimal
    number; anything else is a [ValueError]. *)
Definition float (s : string) : result Q :=
  match partition "." s with
  | (ip, None) =>
      if isdigit ip then Ok (inject_Z (int ip)) else Raise ExtractError
  | (ip, Some fp) =>
      if isdigit (ip ++ fp)
      then Ok (Qmake (int (ip ++ fp)) (pow10 (String.length fp)))
      else Raise ExtractError
  end.

(** [price = float(re.search(r"[\d,.]+", text).group().replace(",", ""))]:
    [.group()] on a failed search is an [AttributeError]. *)
Definition price_of_text (text : string) : result Q :=
  match re_search_price text with
  | None => Raise ExtractError
  | Some run => float (remove_char "," run)
  end.

(** ** Parsed markup (BeautifulSoup) *)

(** A parsed document: elements with their attributes as written in the
    markup, and text. *)
Inductive node : Type :=
| Elem (tag : string) (attrs : list (string * string)) (kids : list node)
| Text (s : string).

Inductive parser : Type := Lxml | Xml.

Fixpoint assoc {V : Type} (k : string) (l : list (string * V)) : option V :=
  match l with
  | [] => None
  | (k', v) :: l' => if String.eqb k k' then Some v else assoc k l'
  end.

Definition attrs_of (n : node) : list (string * string) :=
  match n with
  | Elem _ a _ => a
  | Text _ => []
  end.

Definition tag_of (n : node) : option string :=
  match n with
  | Elem t _ _ => Some t
  | Text _ => None
  end.

(** [tag.get(key)] for a single-valued attribute. *)
Definition attr (n : node) (key : string) : option string := assoc key (attrs_of n).

(** [tag[key]]: a [KeyError] when the attribute is missing. *)
Definition getitem (n : node) (key : string) : result string :=
  match attr n key with
  | Some v => Ok v
  | None => Raise ExtractError
  end.

(** The whitespace-separated tokens of an attribute value: the list
    BeautifulSoup stores for [class]. *)
Definition tokens (s : string) : list string :=
  filter (fun w => negb (is_empty w)) (split_by is_space s).

(** [tag.get("class")] *)
Definition class_list (n : node) : option (list string) :=
  option_map tokens (attr n "class").

(** Every node below [n], in document order. *)
Fixpoint descendants (n : node) : list node :=
  match n with
  | Text _ => []
  | Elem _ _ kids =>
      (fix go (l : list node) : list node :=
         match l with
         | [] => []
         | k :: l' => k :: descendants k ++ go l'
         end) kids
  end.

(** The text pieces below (or at) a node, in document order. *)
Definition strings (n : node) : list string :=
  match n with
  | Text s => [s]
  | Elem _ _ _ =>
      flat_map (fun d => match d with Text s => [s] | Elem _ _ _ => [] end) (descendants n)
  end.

(** [tag.get_text()] and [tag.text] *)
Definition get_text (n : node) : string := String.concat "" (strings n).

(** [tag.get_text(strip=True)]: every piece stripped, empty pieces dropped. *)
Definition get_text_strip (n : node) : string :=
  String.concat "" (filter (fun s => negb (is_empty s)) (map strip (strings n))).

(** [tag.find_all(name)] *)
Definition find_all (name : string) (n : node) : list node :=
  filter (fun d => match tag_of d with Some t => String.eqb t name | None => false end)
         (descendants n).

(** *** Selectors

    The selectors the source fixes are comma lists of compound selectors made
    of a type, classes and attribute-presence tests; the selectors a caller
    hands to the generic adapter range over the same fragment, already
    parsed. *)
Inductive simple : Type :=
| SType (t : string)        (* li *)
| SClass (c : string)       (* .product *)
| SHasAttr (a : string).    (* [href] *)

Definition compound : Type := list simple.
Definition selector : Type := list compound.

Definition matches_simple (n : node) (s : simple) : bool :=
  match n with
  | Text _ => false
  | Elem t _ _ =>
      match s with
      | SType t' => String.eqb t t'
      | SClass c =>
          match class_list n with
          | Some cl => existsb (String.eqb c) cl
          | None => false
          end
      | SHasAttr a =>
          match attr n a with
          | Some _ => true
          | None => false
          end
      end
  end.

Definition is_elem (n : node) : bool :=
  match n with
  | Elem _ _ _ => true
  | Text _ => false
  end.

Definition matches_compound (n : node) (c : compound) : bool :=
  is_elem n && forallb (matches_simple n) c.

Definition matches (sel : selector) (n : node) : bool :=
  existsb (matches_compound n) sel.

(** [tag.select(sel)]: the matching elements below [tag], in document order. *)
Definition select (n : node) (sel : selector) : list node :=
  filter (matches sel) (descendants n).

(** [tag.select_one(sel)] *)
Definition select_one (n : node) (sel : selector) : option node :=
  match select n sel with
  | [] => None
  | x :: _ => Some x
  end.

(** ** URLs (urllib.parse) *)

(** The six components [urlparse] returns. *)
Record ParseResult : Type := mkParseResult {
  scheme : string;
  netloc : string;
  path : string;
  params : string;
  query : string;
  fragment : string
}.

(** [parsed._replace(query=q)] *)
Definition replace_query (p : ParseResult) (q : string) : ParseResult :=
  {| scheme := scheme p; netloc := netloc p; path := path p;
     params := params p; query := q; fragment := fragment p |}.

(** The three functions of [urllib.parse] that split, rebuild and resolve
    whole URLs.  The adapters are written against this interface;
    [cpython_urllib] below is the instance used for worked examples. *)
Class UrlLib : Type := {
  urlparse : string -> ParseResult;
  urlunparse : ParseResult -> string;
  urljoin : string -> string -> string
}.

Definition hex_digit (n : nat) : ascii :=
  match String.get n "0123456789ABCDEF" with
  | Some c => c
  | None => "0"%char
  end.

Definition hex_value (c : ascii) : option nat :=
  let n := nat_of_ascii c in
  if is_digit c then Some (n - 48)
  else if (65 <=? n)%nat && (n <=? 70)%nat then Some (n - 55)
  else if (97 <=? n)%nat && (n <=? 102)%nat then Some (n - 87)
  else None.

(** The unreserved characters [quote] leaves alone: letters, digits and
    [_ . - ~]. *)
Definition always_safe (c : ascii) : bool :=
  let n := nat_of_ascii c in
  ((65 <=? n)%nat && (n <=? 90)%nat) || ((97 <=? n)%nat && (n <=? 122)%nat)
  || is_digit c
  || Ascii.eqb c "_" || Ascii.eqb c "." || Ascii.eqb c "-" || Ascii.eqb c "~".

Definition quote_char (c : ascii) : string :=
  if Ascii.eqb c " " then "+"
  else if always_safe c then String c EmptyString
  else String "%" (String (hex_digit (nat_of_ascii c / 16))
                     (String (hex_digit (nat_of_ascii c mod 16)) EmptyString)).

(** [quote_plus(s, safe="")]: a space becomes [+], an unreserved character
    stays, every other byte becomes [%XX]. *)
Fixpoint quote_plus (s : string) : string :=
  match s with
  | EmptyString => EmptyString
  | String c r => quote_char c ++ quote_plus r
  end.

(** [unquote(s)]: every [%XX] with two hexadecimal digits becomes the byte
    it names; a [%] not followed by two such digits stays.  (Decoded bytes
    that are not UTF-8 are kept as they are, where Python substitutes
    U+FFFD.) *)
Fixpoint unquote (s : string) : string :=
  match s with
  | EmptyString => EmptyString
  | String c r =>
      match r with
      | String a (String b r') =>
          if Ascii.eqb c "%" then
            match hex_value a, hex_value b with
            | Some x, Some y => String (ascii_of_nat (16 * x + y)) (unquote r')
            | _, _ => String c (unquote r)
            end
          else String c (unquote r)
      | _ => String c (unquote r)
      end
  end.

(** [parse_qsl(qs)] with its defaults ([keep_blank_values=False],
    [separator="&"]): fields that are empty, have no [=] or have nothing
    after it are dropped. *)
Definition parse_field (name_value : string) : list (string * string) :=
  if is_empty name_value then []
  else match partition "=" name_value with
       | (_, None) => []
       | (n, Some v) =>
           if is_empty v then []
           else [(unquote (replace_char "+" " " n), unquote (replace_char "+" " " v))]
       end.

Definition parse_qsl (qs : string) : list (string * string) :=
  flat_map parse_field (split_on "&" qs).

(** A Python [dict] from strings to lists of strings, in insertion order. *)
Definition qdict : Type := list (string * list string).

(** [d[k].append(v)] when [k] is a key, [d[k] = [v]] otherwise. *)
Fixpoint dict_append (d : qdict) (k v : string) : qdict :=
  match d with
  | [] => [(k, [v])]
  | (k', vs) :: d' =>
      if String.eqb k k' then (k', vs ++ [v]) :: d'
      else (k', vs) :: dict_append d' k v
  end.

(** [d[k] = vs]: an existing key keeps its place. *)
Fixpoint dict_set (d : qdict) (k : string) (vs : list string) : qdict :=
  match d with
  | [] => [(k, vs)]
  | (k', vs') :: d' =>
      if String.eqb k k' then (k', vs) :: d'
      else (k', vs') :: dict_set d' k vs
  end.

(** [parse_qs(qs)] *)
Definition parse_qs (qs : string) : qdict :=
  fold_left (fun d nv => dict_append d (fst nv) (snd nv)) (parse_qsl qs) [].

(** [urlencode(d, doseq=True)] *)
Definition urlencode (d : qdict) : string :=
  join "&" (flat_map (fun kv => map (fun v => (quote_plus (fst kv) ++ "=" ++ quote_plus v)%string) (snd kv)) d).

(** ** JSON values ([Response.json()]) *)

(** Numbers are the finite ones, as rationals; an object lists its keys
    once each. *)
Inductive json : Type :=
| JNull
| JBool (b : bool)
| JNum (q : Q)
| JStr (s : string)
| JArr (l : list json)
| JObj (kv : list (string * json)).

(** Python truth of a decoded value. *)
Definition truthy (v : json) : bool :=
  match v with
  | JNull => false
  | JBool b => b
  | JNum q => negb (Qeq_bool q 0)
  | JStr s => negb (is_empty s)
  | JArr l => match l with [] => false | _ :: _ => true end
  | JObj kv => match kv with [] => false | _ :: _ => true end
  end.

(** [data.get(key, default)]: an [AttributeError] unless [data] is a dict. *)
Definition py_get (data : json) (key : string) (default : json) : result json :=
  match data with
  | JObj kv => Ok (match assoc key kv with Some v => v | None => default end)
  | _ => Raise ExtractError
  end.

(** [v.strip()]: an [AttributeError] unless [v] is a string. *)
Definition py_strip (v : json) : result string :=
  match v with
  | JStr s => Ok (strip s)
  | _ => Raise ExtractError
  end.

(** [v["price"]]: a [KeyError] on a dict without the key, a [TypeError] on
    anything that is not a dict. *)
Definition variant_price (v : json) : result json :=
  match v with
  | JObj kv =>
      match assoc "price" kv with
      | Some p => Ok p
      | None => Raise ExtractError
      end
  | _ => Raise ExtractError
  end.

(** The numeric value of an [int], [float] or [bool]. *)
Definition as_number (v : json) : result Q :=
  match v with
  | JNum q => Ok q
  | JBool b => Ok (if b then 1%Q else 0%Q)
  | _ => Raise ExtractError
  end.

(** [min] of a non-empty list of numbers: the first smallest one. *)
Definition py_min (x : Q) (xs : list Q) : Q :=
  fold_left (fun m y => if Qle_bool m y then m else y) xs x.

(** [min(v["price"] for v in variants) / 100] for a truthy [variants].
    It succeeds exactly when [variants] is a list of dicts that all carry a
    numeric price: a missing key raises in the generator, a value that is
    not a number raises either when [min] compares it with a number or when
    the result is divided, and iterating a truthy value that is not a list
    yields no dict. *)
Definition min_price (variants : json) : result Q :=
  match variants with
  | JArr vs =>
      ps <- mapM variant_price vs ;;
      ns <- mapM as_number ps ;;
      match ns with
      | [] => Raise ExtractError
      | n :: ns' => Ok (py_min n ns' / 100)%Q
      end
  | _ => Raise ExtractError
  end.

(** [data.get("images", [""])[0] if data.get("images") else ""] *)
Definition first_image (data : json) : result json :=
  cond <- py_get data "images" JNull ;;
  if truthy cond then
    images <- py_get data "images" (JArr [JStr ""]) ;;
    match images with
    | JArr (x :: _) => Ok x
    | JStr (String c _) => Ok (JStr (String c EmptyString))
    | _ => Raise ExtractError
    end
  else Ok (JStr "").

(** [Path(s).name]: the last component of the path, ignoring empty and
    [.] components. *)
Definition path_name (s : string) : string :=
  last (filter (fun c => negb (is_empty c) && negb (String.eqb c ".")) (split_on "/" s))
       EmptyString.

(** ** The network and the rows *)

(** What one fetch returns after decoding:
    [BeautifulSoup(requests.get(url, ...).content, parser)] and
    [requests.get(url, ...).json()].  [Raise] is the exception the call
    raises; a response with an error status is still content. *)
Record web : Type := mkWeb {
  get_soup : parser -> string -> result node;
  get_json : string -> result json
}.

(** One tuple appended to [rows], with the column names of the data frame.
    The image is a JSON value because the Shopify adapter stores whatever
    heads the payload's image list. *)
Record row : Type := mkRow {
  Category : string;
  Product_Name : string;
  Price : option Q;
  URL : string;
  Image : json
}.

(** [range(a, b)] *)
Definition range (a b : Z) : list Z :=
  map (fun i => (a + Z.of_nat i)%Z) (seq 0 (Z.to_nat (b - a))).

Fixpoint foldM {A B : Type} (f : B -> A -> result B) (l : list A) (b : B) : result B :=
  match l with
  | [] => Ok b
  | a :: l' => b' <- f b a ;; foldM f l' b'
  end.

(** [max(nums)] for a non-empty list. *)
Definition py_max (n : Z) (ns : list Z) : Z := fold_left Z.max ns n.

(** ["ul.page-numbers, nav.woocommerce-pagination"] *)
Definition pager_sel : selector :=
  [[SType "ul"; SClass "page-numbers"]; [SType "nav"; SClass "woocommerce-pagination"]].

(** The list [nums] of [_last_page]. *)
Definition pager_nums (soup : node) : list Z :=
  match select_one soup pager_sel with
  | Some pager => map int (filter isdigit (map get_text (find_all "a" pager)))
  | None => []
  end.

Definition _last_page (soup : node) : Z :=
  match pager_nums soup with
  | [] => 1%Z
  | n :: ns => py_max n ns
  end.

(** ["li.product"] *)
Definition product_sel : selector := [[SType "li"; SClass "product"]].
(** [".woocommerce-loop-product__title, h2.woocommerce-loop-product__title"] *)
Definition title_sel : selector :=
  [[SClass "woocommerce-loop-product__title"];
   [SType "h2"; SClass "woocommerce-loop-product__title"]].
(** ["span.price"] *)
Definition price_sel : selector := [[SType "span"; SClass "price"]].
(** ["a[href]"] *)
Definition link_sel : selector := [[SType "a"; SHasAttr "href"]].
(** ["img[src]"] *)
Definition img_sel : selector := [[SType "img"; SHasAttr "src"]].

(** [card.get("data-product_cat", "") or card.get("class", [""])[0]] *)
Definition woo_category (card : node) : result string :=
  let d := match attr card "data-product_cat" with Some v => v | None => "" end in
  if negb (is_empty d) then Ok d
  else match (match class_list card with Some cl => cl | None => [""] end) with
       | c :: _ => Ok c
       | [] => Raise ExtractError
       end.

(** ** The adapters *)

Section Adapters.
Context {U : UrlLib}.

Definition _next_page_url (base : string) (num : Z) : string :=
  let parsed := urlparse base in
  let qs := parse_qs (query parsed) in
  let qs := dict_set qs "paged" [str num] in
  urlunparse (replace_query parsed (urlencode qs)).

(** *** WooCommerce *)

(** The body of the [try] in [_parse_cards] for one card: [Ok None] is the
    [continue] of the guard, [Raise] an exception the [except] swallows. *)
Definition woo_card (shop_url : string) (card : node) : result (option row) :=
  let name_el := select_one card title_sel in
  let price_el := select_one card price_sel in
  let link_tag := select_one card link_sel in
  let img_tag := select_one card img_sel in
  match name_el, price_el, link_tag with
  | Some name_el, Some price_el, Some link_tag =>
      let name := get_text_strip name_el in
      price <- price_of_text (get_text price_el) ;;
      href <- getitem link_tag "href" ;;
      let url := urljoin shop_url href in
      image <- match img_tag with
               | Some t => getitem t "src"
               | None => Ok ""
               end ;;
      cat <- woo_category card ;;
      Ok (Some (mkRow cat name (Some price) url (JStr image)))
  | _, _, _ => Ok None
  end.

(** The rows one card adds. *)
Definition woo_card_rows (shop_url : string) (card : node) : list row :=
  match woo_card shop_url card with
  | Ok (Some r) => [r]
  | Ok None => []
  | Raise _ => []
  end.

(** The rows [_parse_cards(sp)] appends to [rows]. *)
Definition _parse_cards (shop_url : string) (sp : node) : list row :=
  flat_map (woo_card_rows shop_url) (select sp product_sel).

(** One turn of [for p in range(2, total + 1)]: the rows so far and the
    pages reported as skipped. *)
Definition woo_page (W : web) (shop_url : string)
           (st : list row * list (Z * exn)) (p : Z) : list row * list (Z * exn) :=
  match get_soup W Lxml (_next_page_url shop_url p) with
  | Ok soup => (fst st ++ _parse_cards shop_url soup, snd st)
  | Raise e => (fst st, snd st ++ [(p, e)])
  end.

(** [min(_last_page(first), max_pages) if max_pages else _last_page(first)] *)
Definition total_pages (first : node) (max_pages : option Z) : Z :=
  match max_pages with
  | Some m => if Z.eqb m 0 then _last_page first else Z.min (_last_page first) m
  | None => _last_page first
  end.

(** The rows of the data frame and the skipped pages it prints. *)
Definition scrape_woocommerce (W : web) (shop_url : string) (max_pages : option Z)
  : result (list row * list (Z * exn)) :=
  first <- get_soup W Lxml shop_url ;;
  let rows := _parse_cards shop_url first in
  let total := total_pages first max_pages in
  Ok (fold_left (woo_page W shop_url) (range 2 (total + 1)) (rows, [])).

(** *** Shopify *)

Definition _find_sitemaps (W : web) (url : string) : result (list string) :=
  soup <- get_soup W Xml (urljoin url "/sitemap.xml") ;;
  Ok (filter (contains "sitemap_products") (map get_text (find_all "loc" soup))).

Definition _extract_handles (W : web) (smap : string) : result (list string) :=
  soup <- get_soup W Xml smap ;;
  Ok (map (fun loc => path_name (get_text loc)) (find_all "loc" soup)).

(** Lines 54 to 60: the tuple built from one decoded payload. *)
Definition shopify_row (store_url handle : string) (data : json) : result row :=
  t <- py_get data "title" (JStr "") ;;
  title <- py_strip t ;;
  c <- py_get data "type" (JStr "Uncategorised") ;;
  category <- py_strip c ;;
  variants <- py_get data "variants" (JArr []) ;;
  price <- (if truthy variants
            then q <- min_price variants ;; Ok (Some q)
            else Ok None) ;;
  let prod_url := urljoin store_url ("/products/" ++ handle) in
  image <- first_image data ;;
  Ok (mkRow category title price prod_url image).

(** One turn of [for handle in ...]: only the fetch and its decoding sit
    inside the [try]. *)
Definition shopify_handle (W : web) (store_url : string)
           (rows : list row) (handle : string) : result (list row) :=
  match get_json W (urljoin store_url ("/products/" ++ handle ++ ".js")) with
  | Raise _ => Ok rows
  | Ok data => r <- shopify_row store_url handle data ;; Ok (rows ++ [r])
  end.

Definition shopify_sitemap (W : web) (store_url : string)
           (rows : list row) (sm : string) : result (list row) :=
  handles <- _extract_handles W sm ;;
  foldM (shopify_handle W store_url) handles rows.

Definition scrape_shopify (W : web) (store_url : string) : result (list row) :=
  sms <- _find_sitemaps W store_url ;;
  foldM (shopify_sitemap W store_url) sms [].

(** *** Generic CSS *)

Section Generic.
Variables (sel_name sel_price : selector) (sel_cat sel_img : option selector).

(** The body of the [try] for one card, with the value the variable
    [url] holds when the card is reached. *)
Definition generic_card (url : string) (card : node) : result (option row) :=
  match select_one card sel_name, select_one card sel_price with
  | Some name_el, Some price_el =>
      let cat_el := match sel_cat with
                    | Some s => select_one card s
                    | None => None
                    end in
      let img_el := match sel_img with
                    | Some s => select_one card s
                    | None => None
                    end in
      let name := get_text_strip name_el in
      let cat := match cat_el with
                 | Some e => get_text_strip e
                 | None => "Uncategorised"
                 end in
      price <- price_of_text (get_text price_el) ;;
      let link := select_one card link_sel in
      url' <- match link with
              | Some l => href <- getitem l "href" ;; Ok (urljoin url href)
              | None => Ok url
              end ;;
      let img := match img_el with
                 | Some e => match attr e "src" with Some v => v | None => "" end
                 | None => ""
                 end in
      Ok (Some (mkRow cat name (Some price) url' (JStr img)))
  | _, _ => Ok None
  end.

(** One turn of [for card in soup.select(sel_prod)]: the assignment
    [url = ...] of the loop body rebinds the function's own [url], so
    the value is carried to the next card together with the rows. *)
Definition generic_step (st : string * list row) (card : node) : string * list row :=
  match generic_card (fst st) card with
  | Ok (Some r) => (URL r, snd st ++ [r])
  | Ok None => st
  | Raise _ => st
  end.

Definition generic_cards (url : string) (cards : list node) : list row :=
  snd (fold_left generic_step cards (url, [])).

Definition scrape_generic (W : web) (url : string) (sel_prod : selector)
  : result (list row) :=
  soup <- get_soup W Lxml url ;;
  Ok (generic_cards url (select soup sel_prod)).
End Generic.
End Adapters.

(** ** An instance of the URL interface

    [urlparse], [urlunparse] and [urljoin] as CPython's [urllib.parse]
    computes them on URLs without control characters and without brackets
    in the host (the cases where the library strips characters or raises).
    The theorems below hold for every instance; this one evaluates the
    adapters on concrete pages. *)

Definition mem (s : string) (l : list string) : bool := existsb (String.eqb s) l.

Definition uses_relative : list string :=
  [""; "ftp"; "http"; "gopher"; "nntp"; "imap"; "wais"; "file"; "https"; "shttp";
   "mms"; "prospero"; "rtsp"; "rtspu"; "sftp"; "svn"; "svn+ssh"; "ws"; "wss"].

Definition uses_netloc : list string :=
  [""; "ftp"; "http"; "gopher"; "nntp"; "telnet"; "imap"; "wais"; "file"; "mms";
   "https"; "shttp"; "snews"; "prospero"; "rtsp"; "rtspu"; "rsync"; "svn";
   "svn+ssh"; "sftp"; "nfs"; "git"; "git+ssh"; "ws"; "wss"].

Definition uses_params : list string :=
  [""; "ftp"; "hdl"; "prospero"; "http"; "imap"; "https"; "shttp"; "rtsp";
   "rtspu"; "sip"; "sips"; "mms"; "sftp"; "tel"].

Definition is_upper (c : ascii) : bool :=
  let n := nat_of_ascii c in (65 <=? n)%nat && (n <=? 90)%nat.

Definition is_alpha (c : ascii) : bool :=
  let n := nat_of_ascii c in is_upper c || ((97 <=? n)%nat && (n <=? 122)%nat).

Definition scheme_char (c : ascii) : bool :=
  is_alpha c || is_digit c || Ascii.eqb c "+" || Ascii.eqb c "-" || Ascii.eqb c ".".

Fixpoint lower (s : string) : string :=
  match s with
  | EmptyString => EmptyString
  | String c r =>
      String (if is_upper c then ascii_of_nat (nat_of_ascii c + 32) else c) (lower r)
  end.

Definition split_scheme (default url : string) : string * string :=
  match partition ":" url with
  | (String c pre, Some rest) =>
      if is_alpha c && all_chars scheme_char (String c pre)
      then (lower (String c pre), rest)
      else (default, url)
  | _ => (default, url)
  end.

Definition netloc_char (c : ascii) : bool :=
  negb (Ascii.eqb c "/" || Ascii.eqb c "?" || Ascii.eqb c "#").

Definition split_netloc (url : string) : string * string :=
  match url with
  | String "/" (String "/" r) => (take_while netloc_char r, drop_while netloc_char r)
  | _ => (EmptyString, url)
  end.

Definition split_first (sep : ascii) (url : string) : string * string :=
  match partition sep url with
  | (a, Some b) => (a, b)
  | (a, None) => (a, EmptyString)
  end.

(** The text up to and including the last [/], and the text after it. *)
Fixpoint rpartition_slash (s : string) : string * string :=
  match s with
  | EmptyString => (EmptyString, EmptyString)
  | String c r =>
      let (h, t) := rpartition_slash r in
      if is_empty h
      then (if Ascii.eqb c "/" then (String c EmptyString, r) else (EmptyString, String c r))
      else (String c h, t)
  end.

Definition split_params (url : string) : string * string :=
  let (h, t) := rpartition_slash url in
  match partition ";" t with
  | (a, Some p) => ((h ++ a)%string, p)
  | (_, None) => (url, EmptyString)
  end.

Definition cpython_urlparse (default url : string) : ParseResult :=
  let (sch, u1) := split_scheme default url in
  let (nl, u2) := split_netloc u1 in
  let (u3, frag) := split_first "#" u2 in
  let (u4, q) := split_first "?" u3 in
  let (p, prm) := if mem sch uses_params then split_params u4 else (u4, EmptyString) in
  mkParseResult sch nl p prm q frag.

Definition cpython_urlunparse (p : ParseResult) : string :=
  let url := if is_empty (params p) then path p else (path p ++ ";" ++ params p)%string in
  let url :=
    if negb (is_empty (netloc p))
       || (negb (is_empty (scheme p)) && mem (scheme p) uses_netloc && negb (prefix "//" url))
    then ("//" ++ netloc p
          ++ (if negb (is_empty url) && negb (prefix "/" url) then "/" ++ url else url))%string
    else url in
  let url := if is_empty (scheme p) then url else (scheme p ++ ":" ++ url)%string in
  let url := if is_empty (query p) then url else (url ++ "?" ++ query p)%string in
  if is_empty (fragment p) then url else (url ++ "#" ++ fragment p)%string.

Definition nonempty (s : string) : bool := negb (is_empty s).

Definition drop_file (parts : list string) : list string :=
  if is_empty (last parts EmptyString) then parts else removelast parts.

Definition filter_middle (segments : list string) : list string :=
  match segments with
  | [] => []
  | x :: r =>
      match r with
      | [] => [x]
      | _ :: _ => x :: filter nonempty (removelast r) ++ [last r EmptyString]
      end
  end.

Definition resolve_dots (segments : list string) : list string :=
  let resolved :=
    fold_left (fun acc seg =>
                 if String.eqb seg ".." then removelast acc
                 else if String.eqb seg "." then acc
                 else acc ++ [seg]) segments [] in
  let l := last segments EmptyString in
  if String.eqb l "." || String.eqb l ".." then resolved ++ [EmptyString] else resolved.

Definition cpython_urljoin (base url : string) : string :=
  if is_empty base then url
  else if is_empty url then base
  else
    let b := cpython_urlparse EmptyString base in
    let u := cpython_urlparse (scheme b) url in
    if negb (String.eqb (scheme u) (scheme b)) || negb (mem (scheme u) uses_relative)
    then url
    else if mem (scheme u) uses_netloc && nonempty (netloc u)
    then cpython_urlunparse u
    else
      let nl := if mem (scheme u) uses_netloc then netloc b else netloc u in
      if is_empty (path u) && is_empty (params u)
      then cpython_urlunparse
             (mkParseResult (scheme u) nl (path b) (params b)
                            (if is_empty (query u) then query b else query u) (fragment u))
      else
        let base_parts := drop_file (split_on "/" (path b)) in
        let segments :=
          if prefix "/" (path u) then split_on "/" (path u)
          else filter_middle (base_parts ++ split_on "/" (path u)) in
        let joined := join "/" (resolve_dots segments) in
        cpython_urlunparse
          (mkParseResult (scheme u) nl (if is_empty joined then "/" else joined)
                         (params u) (query u) (fragment u)).

#[export] Instance cpython_urllib : UrlLib := {|
  urlparse := cpython_urlparse EmptyString;
  urlunparse := cpython_urlunparse;
  urljoin := cpython_urljoin
|}.

(** ** The column loop of [save_excel] and the column switch of [main_cli] *)

(** The columns every adapter gives its data frame. *)
Definition frame_columns : list string :=
  ["Category"; "Product Name"; "Price"; "URL"; "Image"].

(** [widths = [15, 45, 12, 45, 40]] *)
Definition widths : list Z := [15; 45; 12; 45; 40]%Z.

(** [df.columns[i]]: an [IndexError] beyond the last column. *)
Definition column_at (columns : list string) (i : nat) : result string :=
  match nth_error columns i with
  | Some c => Ok c
  | None => Raise ExtractError
  end.

(** [enumerate(l)] *)
Definition enumerate {A : Type} (l : list A) : list (nat * A) :=
  combine (seq 0 (List.length l)) l.

(** Lines 166 to 168 of [save_excel],
    [for i, w in enumerate(widths):
         ws.set_column(i, i, w, cur_fmt if df.columns[i] == "Price" else None)]:
    the calls made, each with its column, its width and whether the
    currency format is passed. *)
Definition set_column_calls (columns : list string) : result (list (nat * Z * bool)) :=
  mapM (fun iw => name <- column_at columns (fst iw) ;;
                  Ok (fst iw, snd iw, String.eqb name "Price"))
       (enumerate widths).

(** Lines 230 and 231 of [main_cli],
    [if args.no_image_col and "Image" in df.columns:
         df = df.drop(columns=["Image"])]: the columns left. *)
Definition drop_image (no_image_col : bool) (columns : list string) : list string :=
  if no_image_col && mem "Image" columns
  then filter (fun c => negb (String.eqb c "Image")) columns
  else columns.

(** ** Pages and payloads for the worked examples *)

(** A product card as WooCommerce lays it out: title, price, link. *)
Definition woo_li (attrs : list (string * string)) (title price href : string) : node :=
  Elem "li" attrs
    [Elem "a" [("href", href)]
       [Elem "h2" [("class", "woocommerce-loop-product__title")] [Text title]];
     Elem "span" [("class", "price")] [Text price]].

Definition page_of (body : list node) : node :=
  Elem "[document]" [] [Elem "html" [] [Elem "body" [] body]].

(** A pager whose links carry the given labels. *)
Definition pager_of (labels : list string) : node :=
  Elem "ul" [("class", "page-numbers")]
    (map (fun l => Elem "li" [] [Elem "a" [("href", "#")] [Text l]]) labels).


(** A web serving one markup page, whatever the URL, and no payload. *)
Definition one_page (p : node) : web :=
  {| get_soup := fun _ _ => Ok p;
     get_json := fun _ => Raise TransportError |}.

(** A card for the generic adapter: a title, a price and, when given, a
    link. *)
Definition generic_div (title price : string) (href : option string) : node :=
  Elem "div" [("class", "card")]
    ([Elem "span" [("class", "title")] [Text title];
      Elem "span" [("class", "amount")] [Text price]]
     ++ match href with
        | Some h => [Elem "a" [("href", h)] [Text "view"]]
        | None => []
        end).

(** ["div.card"], [".title"], [".amount"] *)
Definition div_card_sel : selector := [[SType "div"; SClass "card"]].
Definition dot_title_sel : selector := [[SClass "title"]].
Definition dot_amount_sel : selector := [[SClass "amount"]].

(** A Shopify store at [https://shop.example]: a sitemap index naming one
    product sitemap and one page sitemap, the product sitemap listing
    [handles], and the payloads served under [/products/<handle>.js]. *)
Definition sitemap_index : node :=
  Elem "sitemapindex" []
    [Elem "sitemap" [] [Elem "loc" [] [Text "https://shop.example/sitemap_products_1.xml"]];
     Elem "sitemap" [] [Elem "loc" [] [Text "https://shop.example/sitemap_pages_1.xml"]]].

Definition product_sitemap (handles : list string) : node :=
  Elem "urlset" []
    (map (fun h => Elem "url" [] [Elem "loc" [] [Text ("https://shop.example/products/" ++ h)]])
         handles).

Definition shop_web (handles : list string) (payloads : list (string * result json)) : web :=
  {| get_soup := fun _ u =>
       if String.eqb u "https://shop.example/sitemap.xml" then Ok sitemap_index
       else if String.eqb u "https://shop.example/sitemap_products_1.xml"
            then Ok (product_sitemap handles)
            else Raise TransportError;
     get_json := fun u =>
       match assoc u payloads with
       | Some r => r
       | None => Raise TransportError
       end |}.

(** [{"title": t, "variants": [{"price": p} for p in prices]}] *)
Definition payload (t : string) (prices : list Q) : json :=
  JObj [("title", JStr t);
        ("variants", JArr (map (fun p => JObj [("price", JNum p)]) prices))].

(** A WooCommerce shop at [https://shop.example/store/] of three pages,
    whose second page cannot be fetched. *)
Definition store_page1 : node :=
  page_of [woo_li [("class", "product")] "Tea" "5" "/p/tea";
           pager_of ["1"; "2"; "3"; "Next"]].

Definition store_page3 : node :=
  page_of [woo_li [("class", "product")] "Cup" "7" "/p/cup"].

Definition store_web : web :=
  {| get_soup := fun _ u =>
       if String.eqb u "https://shop.example/store/" then Ok store_page1
       else if String.eqb u "https://shop.example/store/?paged=3" then Ok store_page3
            else Raise TransportError;
     get_json := fun _ => Raise TransportError |}.

(** The rows and the report one later page contributes. *)
Definition page_rows {U : UrlLib} (W : web) (shop_url : string) (p : Z) : list row :=
  match get_soup W Lxml (_next_page_url shop_url p) with
  | Ok soup => _parse_cards shop_url soup
  | Raise _ => []
  end.

Definition page_report {U : UrlLib} (W : web) (shop_url : string) (p : Z) : list (Z * exn) :=
  match get_soup W Lxml (_next_page_url shop_url p) with
  | Ok _ => []
  | Raise e => [(p, e)]
  end.

(** ** Vocabulary of the statements *)

(** A run followed by nothing or by a character outside the class is what
    [take_while] returns. *)
Definition ends_run (p : ascii -> bool) (post : string) : Prop :=
  match post with
  | EmptyString => True
  | String c _ => p c = false
  end.



(** The dicts [parse_qs] builds: keys listed once, each with at least one
    value, no value empty. *)
Definition qdict_ok (d : qdict) : Prop :=
  NoDup (map fst d) /\
  forall k vs, In (k, vs) d -> vs <> [] /\ forall v, In v vs -> v <> EmptyString.

(** The key-value pairs of a dict, in the order [urlencode] writes them. *)
Definition items (d : qdict) : list (string * string) :=
  flat_map (fun kv => map (fun v => (fst kv, v)) (snd kv)) d.


(** The characters that end neither a field nor a key. *)
Definition field_safe (c : ascii) : bool :=
  negb (Ascii.eqb c "&") && negb (Ascii.eqb c "=").

(** The field [urlencode] writes for one key and value. *)
Definition encode_item (kv : string * string) : string :=
  (quote_plus (fst kv) ++ "=" ++ quote_plus (snd kv))%string.

(** The step of [parse_qs] for one pair. *)
Definition add_pair (d : qdict) (nv : string * string) : qdict :=
  dict_append d (fst nv) (snd nv).




(** The first and the last character of a string. *)
Definition first_char (s : string) : option ascii :=
  match s with
  | EmptyString => None
  | String c _ => Some c
  end.

Fixpoint last_char (s : string) : option ascii :=
  match s with
  | EmptyString => None
  | String c r => match r with
                  | EmptyString => Some c
                  | String _ _ => last_char r
                  end
  end.

(** A string that begins or ends with a character [strip] removes. *)
Definition edge_space (s : string) : bool :=
  match first_char s with Some c => is_space c | None => false end
  || match last_char s with Some c => is_space c | None => false end.


(** Rows whose URLs follow one another as the generic pass computes them:
    each is the URL before it (the page URL for the first), or a link
    resolved against that URL. *)
Fixpoint url_chain {U : UrlLib} (url : string) (rows : list row) : Prop :=
  match rows with
  | [] => True
  | r :: rest =>
      (URL r = url \/ exists href, URL r = urljoin url href) /\ url_chain (URL r) rest
  end.







(** The query [_next_page_url] writes for a base query. *)
Definition next_page_query (qs : string) (num : Z) : string :=
  urlencode (dict_set (parse_qs qs) "paged" [str num]).

(** The characters an encoded query is made of: unreserved characters,
    [%], [+], [&] and [=]. *)
Definition query_char (c : ascii) : bool :=
  always_safe c || Ascii.eqb c "%" || Ascii.eqb c "+" || Ascii.eqb c "&" || Ascii.eqb c "=".

(** Dots and commas: the class [[\d,.]] without its digits. *)
Definition punctuation (c : ascii) : bool := Ascii.eqb c "," || Ascii.eqb c ".".

Definition has_key (k : string) (kv : string * string) : bool := String.eqb (fst kv) k.

(** * Properties *)

(** ** Strings and numbers *)

Lemma is_empty_true (s : string) : is_empty s = true <-> s = EmptyString.
Proof. destruct s; simpl; split; congruence. Qed.

Lemma is_empty_false (s : string) : is_empty s = false <-> s <> EmptyString.
Proof. destruct s; simpl; split; congruence. Qed.

Lemma digit_value_nonneg (c : ascii) : (0 <= digit_value c)%Z.
Proof. unfold digit_value. lia. Qed.

Lemma int_acc_nonneg (s : string) : forall acc, (0 <= acc)%Z -> (0 <= int_acc acc s)%Z.
Proof.
  induction s as [|c r IH]; intros acc Hacc; cbn [int_acc].
  - exact Hacc.
  - apply IH. pose proof (digit_value_nonneg c). lia.
Qed.

Lemma int_nonneg (s : string) : (0 <= int s)%Z.
Proof. apply int_acc_nonneg. lia. Qed.

Lemma int_acc_app (s t : string) :
  forall acc, int_acc acc (s ++ t) = int_acc (int_acc acc s) t.
Proof. induction s as [|c s IH]; intros acc; cbn [append int_acc]; auto. Qed.

(** [int] reads a decimal numeral: one more digit multiplies by ten. *)
Lemma int_snoc (s : string) (c : ascii) :
  int (s ++ String c EmptyString) = (10 * int s + digit_value c)%Z.
Proof. unfold int. now rewrite int_acc_app. Qed.



Lemma drop_while_app (p : ascii -> bool) (pre s : string) :
  all_chars p pre = true -> drop_while p (pre ++ s) = drop_while p s.
Proof.
  induction pre as [|c r IH]; simpl; intros H.
  - reflexivity.
  - apply andb_prop in H as [Hc Hr]. rewrite Hc. auto.
Qed.


Lemma take_while_app (p : ascii -> bool) (run post : string) :
  all_chars p run = true -> ends_run p post -> take_while p (run ++ post) = run.
Proof.
  induction run as [|c r IH]; simpl; intros H Hpost.
  - destruct post as [|d post']; simpl in *; [reflexivity|]. now rewrite Hpost.
  - apply andb_prop in H as [Hc Hr]. rewrite Hc. f_equal. auto.
Qed.

Lemma re_search_price_run (pre run post : string) :
  all_chars (fun c => negb (price_char c)) pre = true ->
  run <> EmptyString ->
  all_chars price_char run = true ->
  ends_run price_char post ->
  re_search_price (pre ++ run ++ post) = Some run.
Proof.
  intros Hpre Hne Hrun Hpost. unfold re_search_price.
  rewrite drop_while_app by assumption.
  destruct run as [|c r]; [congruence|].
  cbn [all_chars] in Hrun. apply andb_prop in Hrun as [Hc Hr].
  cbn [append drop_while]. rewrite Hc. cbn [negb take_while]. rewrite Hc.
  do 2 f_equal. now apply take_while_app.
Qed.



Lemma partition_present (sep : ascii) (k v : string) :
  all_chars (fun c => negb (Ascii.eqb c sep)) k = true ->
  partition sep (k ++ String sep v) = (k, Some v).
Proof.
  induction k as [|c k IH]; simpl; intros H.
  - now rewrite Ascii.eqb_refl.
  - apply andb_prop in H as [Hc Hk]. apply negb_true_iff in Hc.
    now rewrite Hc, IH.
Qed.

Lemma all_chars_weaken (p q : ascii -> bool) (s : string) :
  (forall c, p c = true -> q c = true) -> all_chars p s = true -> all_chars q s = true.
Proof.
  intros Hpq. induction s as [|c s IH]; simpl; [reflexivity|].
  intros H. apply andb_prop in H as [Hc Hs]. now rewrite (Hpq c Hc), IH.
Qed.




(** ** The error monad *)

Lemma bind_ok {A B : Type} (c : result A) (k : A -> result B) (b : B) :
  bind c k = Ok b -> exists a, c = Ok a /\ k a = Ok b.
Proof. destruct c as [a|e]; simpl; [eauto | discriminate]. Qed.

Lemma bind_raise {A B : Type} (c : result A) (k : A -> result B) (e : exn) :
  c = Raise e -> bind c k = Raise e.
Proof. intros ->. reflexivity. Qed.

(** Peels the binds of a hypothesis [x <- c ;; ... = Ok b]. *)
Ltac bind_inv H :=
  repeat match type of H with
         | bind _ _ = Ok _ =>
             let a := fresh "a" in
             let Ha := fresh "Ha" in
             apply bind_ok in H as (a & Ha & H)
         end.

Lemma foldM_app {A B : Type} (f : B -> A -> result B) (l1 l2 : list A) (b : B) :
  foldM f (l1 ++ l2) b = (b' <- foldM f l1 b ;; foldM f l2 b').
Proof.
  revert b. induction l1 as [|a l1 IH]; intros b; simpl.
  - reflexivity.
  - destruct (f b a) as [b'|e]; simpl; [apply IH | reflexivity].
Qed.

Lemma mapM_ok_in {A B : Type} (f : A -> result B) (l : list A) (l' : list B) (a : A) :
  mapM f l = Ok l' -> In a l -> exists b, f a = Ok b.
Proof.
  revert l'. induction l as [|x l IH]; intros l' H Hin; [contradiction|].
  cbn [mapM] in H. bind_inv H. destruct Hin as [<-|Hin]; [eauto|].
  now apply (IH a1).
Qed.

(** ** Rows of the WooCommerce adapter *)

Section WooFacts.
Context {U : UrlLib}.

Lemma in_parse_cards (shop_url : string) (sp : node) (r : row) :
  In r (_parse_cards shop_url sp) <->
  exists card, In card (select sp product_sel) /\ woo_card shop_url card = Ok (Some r).
Proof.
  unfold _parse_cards. rewrite in_flat_map. split.
  - intros (card & Hin & Hr). exists card. split; [assumption|].
    unfold woo_card_rows in Hr.
    destruct (woo_card shop_url card) as [[r'|]|e]; simpl in Hr; try contradiction.
    destruct Hr as [->|[]]. reflexivity.
  - intros (card & Hin & Hr). exists card. split; [assumption|].
    unfold woo_card_rows. rewrite Hr. now left.
Qed.

(** What an emitted row was built from. *)
Lemma woo_card_inv (shop_url : string) (card : node) (r : row) :
  woo_card shop_url card = Ok (Some r) ->
  exists name_el price_el link_tag q href img cat,
    select_one card title_sel = Some name_el /\
    select_one card price_sel = Some price_el /\
    select_one card link_sel = Some link_tag /\
    price_of_text (get_text price_el) = Ok q /\
    getitem link_tag "href" = Ok href /\
    woo_category card = Ok cat /\
    r = mkRow cat (get_text_strip name_el) (Some q) (urljoin shop_url href) (JStr img).
Proof.
  unfold woo_card.
  destruct (select_one card title_sel) as [name_el|]; [|discriminate].
  destruct (select_one card price_sel) as [price_el|]; [|discriminate].
  destruct (select_one card link_sel) as [link_tag|]; [|discriminate].
  intros H. bind_inv H. injection H as <-.
  repeat eexists; eassumption.
Qed.

Lemma woo_card_bad_price (shop_url : string) (card price_el : node) (e : exn) :
  select_one card price_sel = Some price_el ->
  price_of_text (get_text price_el) = Raise e ->
  woo_card_rows shop_url card = [].
Proof.
  intros Hsel Hprice. unfold woo_card_rows, woo_card. rewrite Hsel.
  destruct (select_one card title_sel); [|reflexivity].
  destruct (select_one card link_sel); [|reflexivity].
  rewrite Hprice. reflexivity.
Qed.
End WooFacts.

(** ** Rows of the generic adapter *)

Section GenericFacts.
Context {U : UrlLib}.
Variables (sel_name sel_price : selector) (sel_cat sel_img : option selector).

Lemma generic_card_inv (url : string) (card : node) (r : row) :
  generic_card sel_name sel_price sel_cat sel_img url card = Ok (Some r) ->
  exists name_el price_el q,
    select_one card sel_name = Some name_el /\
    select_one card sel_price = Some price_el /\
    price_of_text (get_text price_el) = Ok q /\
    Product_Name r = get_text_strip name_el /\
    Price r = Some q /\
    Category r = match (match sel_cat with
                        | Some s => select_one card s
                        | None => None
                        end) with
                 | Some e => get_text_strip e
                 | None => "Uncategorised"
                 end /\
    URL r = match select_one card link_sel with
            | Some l => match attr l "href" with
                        | Some href => urljoin url href
                        | None => url
                        end
            | None => url
            end.
Proof.
  unfold generic_card.
  destruct (select_one card sel_name) as [name_el|]; [|discriminate].
  destruct (select_one card sel_price) as [price_el|]; [|discriminate].
  intros H. bind_inv H. injection H as <-. simpl.
  exists name_el, price_el, a. repeat split; try assumption.
  destruct (select_one card link_sel) as [l|].
  - unfold getitem in Ha0. destruct (attr l "href"); simpl in Ha0; congruence.
  - congruence.
Qed.

Lemma generic_step_rows (st : string * list row) (card : node) :
  snd (generic_step sel_name sel_price sel_cat sel_img st card) = snd st \/
  exists r,
    generic_card sel_name sel_price sel_cat sel_img (fst st) card = Ok (Some r) /\
    generic_step sel_name sel_price sel_cat sel_img st card = (URL r, snd st ++ [r]).
Proof.
  unfold generic_step.
  destruct (generic_card sel_name sel_price sel_cat sel_img (fst st) card) as [[r|]|e];
    [right; eauto | now left | now left].
Qed.

(** Every row of the pass was built from one of its cards, with the value
    [url] held when that card was reached. *)
Lemma in_generic_fold (cards : list node) :
  forall (st : string * list row) (r : row),
    In r (snd (fold_left (generic_step sel_name sel_price sel_cat sel_img) cards st)) ->
    In r (snd st) \/
    exists card url,
      In card cards /\
      generic_card sel_name sel_price sel_cat sel_img url card = Ok (Some r).
Proof.
  induction cards as [|card cards IH]; intros st r Hin; simpl in Hin.
  - now left.
  - apply IH in Hin as [Hin | (c & u & Hc & Hr)].
    + destruct (generic_step_rows st card) as [Heq | (r' & Hr' & Heq)].
      * left. now rewrite <- Heq.
      * rewrite Heq in Hin. simpl in Hin. apply in_app_or in Hin as [Hin|[<-|[]]].
        -- now left.
        -- right. exists card, (fst st). split; [now left | assumption].
    + right. exists c, u. split; [now right | assumption].
Qed.

Lemma in_generic_cards (url : string) (cards : list node) (r : row) :
  In r (generic_cards sel_name sel_price sel_cat sel_img url cards) ->
  exists card u, In card cards /\
                 generic_card sel_name sel_price sel_cat sel_img u card = Ok (Some r).
Proof.
  unfold generic_cards. intros Hin.
  apply in_generic_fold in Hin as [[]|H]. exact H.
Qed.

Lemma generic_step_bad_price (st : string * list row) (card price_el : node) (e : exn) :
  select_one card sel_price = Some price_el ->
  price_of_text (get_text price_el) = Raise e ->
  generic_step sel_name sel_price sel_cat sel_img st card = st.
Proof.
  intros Hsel Hprice. unfold generic_step, generic_card. rewrite Hsel.
  destruct (select_one card sel_name); [|reflexivity].
  rewrite Hprice. reflexivity.
Qed.
End GenericFacts.

(** ** The pager *)

Lemma py_max_spec (ns : list Z) :
  forall n, In (py_max n ns) (n :: ns) /\ forall x, In x (n :: ns) -> (x <= py_max n ns)%Z.
Proof.
  unfold py_max. induction ns as [|m ns IH]; intros n; simpl.
  - split; [now left | intros x [<-|[]]; lia].
  - destruct (IH (Z.max n m)) as [Hin Hle]. split.
    + destruct Hin as [Heq | Hin]; [|now right; right].
      rewrite <- Heq. destruct (Z.max_spec n m) as [[_ ->]|[_ ->]]; auto.
    + pose proof (Hle (Z.max n m) (or_introl eq_refl)) as Hmax.
      intros x [Hx|[Hx|Hx]]; [lia | lia | apply Hle; now right].
Qed.



(** ** Price text *)



(** ** Rows of the Shopify adapter *)

Lemma min_price_inv (variants : json) (q : Q) :
  min_price variants = Ok q ->
  exists vs ps n ns,
    variants = JArr vs /\ mapM variant_price vs = Ok ps /\
    mapM as_number ps = Ok (n :: ns) /\ q = (py_min n ns / 100)%Q.
Proof.
  unfold min_price. destruct variants as [| | | |vs|]; try discriminate.
  intros H. bind_inv H. destruct a0 as [|n ns]; [discriminate|].
  injection H as <-. exists vs, a, n, ns. auto.
Qed.



Section ShopifyFacts.
Context {U : UrlLib}.

(** What a row of the Shopify adapter was built from. *)
Lemma shopify_row_inv (store_url handle : string) (data : json) (r : row) :
  shopify_row store_url handle data = Ok r ->
  exists t c variants,
    py_get data "title" (JStr "") = Ok t /\ py_strip t = Ok (Product_Name r) /\
    py_get data "type" (JStr "Uncategorised") = Ok c /\ py_strip c = Ok (Category r) /\
    py_get data "variants" (JArr []) = Ok variants /\
    (if truthy variants
     then exists q, min_price variants = Ok q /\ Price r = Some q
     else Price r = None) /\
    URL r = urljoin store_url ("/products/" ++ handle).
Proof.
  unfold shopify_row. intros H. bind_inv H. injection H as <-. simpl.
  exists a, a1, a3. repeat split; try assumption.
  destruct (truthy a3).
  - bind_inv Ha4. injection Ha4 as <-. eauto.
  - now injection Ha4 as <-.
Qed.


Lemma shopify_no_variants (store_url handle : string) (kv : list (string * json)) (r : row) :
  assoc "variants" kv = Some (JArr []) ->
  shopify_row store_url handle (JObj kv) = Ok r ->
  Price r = None.
Proof.
  intros Hv H. apply shopify_row_inv in H as (t & c & variants & _ & _ & _ & _ & Hvar & Hp & _).
  simpl in Hvar. rewrite Hv in Hvar. injection Hvar as <-. exact Hp.
Qed.
End ShopifyFacts.

(** ** Prices of the emitted rows *)

(** C10. Every row the WooCommerce adapter and the generic adapter emit
    carries a price: a card whose price element is found but whose text
    gives no number adds no row at all.  The Shopify adapter emits a row
    without a price for a payload whose variants list is empty. *)
Theorem only_shopify_emits_absent_price :
  (forall (U : UrlLib) shop_url sp r,
      In r (_parse_cards shop_url sp) -> exists q, Price r = Some q) /\
  (forall (U : UrlLib) sel_name sel_price sel_cat sel_img url cards r,
      In r (generic_cards sel_name sel_price sel_cat sel_img url cards) ->
      exists q, Price r = Some q) /\
  (forall (U : UrlLib) shop_url card price_el e,
      select_one card price_sel = Some price_el ->
      price_of_text (get_text price_el) = Raise e ->
      woo_card_rows shop_url card = []) /\
  (forall (U : UrlLib) sel_name sel_price sel_cat sel_img url card price_el e,
      select_one card sel_price = Some price_el ->
      price_of_text (get_text price_el) = Raise e ->
      generic_cards sel_name sel_price sel_cat sel_img url [card] = []) /\
  (forall (U : UrlLib) store_url handle kv r,
      assoc "variants" kv = Some (JArr []) ->
      shopify_row store_url handle (JObj kv) = Ok r ->
      Price r = None) /\
  (forall (U : UrlLib) store_url handle,
      exists r, shopify_row store_url handle (payload "Mug" []) = Ok r /\ Price r = None).
Proof.
  split; [|split; [|split; [|split; [|split]]]].
  - intros U shop_url sp r Hin.
    apply in_parse_cards in Hin as (card & _ & Hr).
    apply woo_card_inv in Hr as (? & ? & ? & q & ? & ? & ? & _ & _ & _ & _ & _ & _ & ->).
    now exists q.
  - intros U sel_name sel_price sel_cat sel_img url cards r Hin.
    apply in_generic_cards in Hin as (card & u & _ & Hr).
    apply generic_card_inv in Hr as (? & ? & q & _ & _ & _ & _ & Hq & _).
    now exists q.
  - intros U shop_url card price_el e. apply woo_card_bad_price.
  - intros U sel_name sel_price sel_cat sel_img url card price_el e Hsel Hprice.
    unfold generic_cards. simpl.
    now rewrite (generic_step_bad_price _ _ _ _ _ _ price_el e Hsel Hprice).
  - intros U store_url handle kv r. apply shopify_no_variants.
  - intros U store_url handle. eexists. split; reflexivity.
Qed.

Lemma only_shopify_emits_absent_price_witness :
  (exists q, Price (mkRow "product" "Tea" (Some 5%Q) "https://shop.example/p/tea" (JStr ""))
             = Some q) /\
  (exists q, Price (mkRow "Uncategorised" "Tea" (Some 5%Q)
                          "https://shop.example/catalog/list" (JStr ""))
             = Some q) /\
  woo_card_rows "https://shop.example/store/"
    (woo_li [("class", "product")] "Cup" "Contact us" "/p/cup") = [] /\
  generic_cards dot_title_sel dot_amount_sel None None
    "https://shop.example/catalog/list" [generic_div "Cup" "Contact us" None] = [] /\
  Price (mkRow "Uncategorised" "Mug" None "https://shop.example/products/mug" (JStr ""))
  = None.
Proof.
  destruct only_shopify_emits_absent_price as (Hwoo & Hgen & Hskip & Hgskip & Hshop & _).
  split; [|split; [|split; [|split]]].
  - apply (Hwoo cpython_urllib "https://shop.example/store/"
                (page_of [woo_li [("class", "product")] "Tea" "5" "/p/tea"])).
    vm_compute. now left.
  - apply (Hgen cpython_urllib dot_title_sel dot_amount_sel None None
                "https://shop.example/catalog/list" [generic_div "Tea" "5" None]).
    vm_compute. now left.
  - apply (Hskip cpython_urllib "https://shop.example/store/" _
                 (Elem "span" [("class", "price")] [Text "Contact us"]) ExtractError);
      reflexivity.
  - apply (Hgskip cpython_urllib dot_title_sel dot_amount_sel None None
                  "https://shop.example/catalog/list" _
                  (Elem "span" [("class", "amount")] [Text "Contact us"]) ExtractError);
      reflexivity.
  - apply (Hshop cpython_urllib "https://shop.example" "mug"
                 [("title", JStr "Mug"); ("variants", JArr [])]); reflexivity.
Defined.




(** ** Names of the emitted rows *)

(** C1, as the code has it: a card whose title element is empty, a payload
    without a title and a generic card whose name element is empty are all
    emitted, with the empty string as name. *)
Lemma empty_name_emitted :
  (exists rows log,
      scrape_woocommerce
        (one_page (page_of [woo_li [("class", "product")] "" "5" "/p/tea"]))
        "https://shop.example/store/" None = Ok (rows, log) /\
      map Product_Name rows = [EmptyString]) /\
  (exists rows,
      scrape_shopify
        (shop_web ["mug"] [("https://shop.example/products/mug.js",
                            Ok (JObj [("variants", JArr [])]))])
        "https://shop.example" = Ok rows /\
      map Product_Name rows = [EmptyString]) /\
  (exists rows,
      scrape_generic dot_title_sel dot_amount_sel None None
        (one_page (page_of [generic_div "  " "5" None]))
        "https://shop.example/catalog/list" div_card_sel = Ok rows /\
      map Product_Name rows = [EmptyString]).
Proof.
  split; [|split].
  - eexists. eexists. split; [vm_compute; reflexivity | reflexivity].
  - eexists. split; [vm_compute; reflexivity | reflexivity].
  - eexists. split; [vm_compute; reflexivity | reflexivity].
Qed.

Section NameFacts.
Context {U : UrlLib}.

Lemma woo_card_no_name (shop_url : string) (card : node) :
  select_one card title_sel = None -> woo_card_rows shop_url card = [].
Proof. intros H. unfold woo_card_rows, woo_card. now rewrite H. Qed.

Lemma generic_step_no_name sel_name sel_price sel_cat sel_img st (card : node) :
  select_one card sel_name = None ->
  generic_step sel_name sel_price sel_cat sel_img st card = st.
Proof. intros H. unfold generic_step, generic_card. now rewrite H. Qed.

Lemma shopify_title (store_url handle : string) (data : json) (r : row) :
  shopify_row store_url handle data = Ok r ->
  exists kv, data = JObj kv /\
             match assoc "title" kv with
             | None => Product_Name r = EmptyString
             | Some t => exists s, t = JStr s /\ Product_Name r = strip s
             end.
Proof.
  intros H. apply shopify_row_inv in H as (t & c & variants & Ht & Hs & _).
  destruct data as [| | | | |kv]; try discriminate. exists kv. split; [reflexivity|].
  simpl in Ht. injection Ht as <-.
  destruct (assoc "title" kv) as [t|].
  - destruct t; try discriminate. simpl in Hs. injection Hs as <-. eauto.
  - simpl in Hs. now injection Hs as <-.
Qed.
End NameFacts.

(** C1, amended.  A row of the WooCommerce adapter or of the generic
    adapter comes from a card that has a name element, and its name is the
    text of that element with every piece trimmed; a card without a name
    element gives no row.  A row of the Shopify adapter has the payload's
    trimmed title as its name, the empty string when the payload has no
    title.  Nothing requires the name to be non-empty. *)
Theorem record_name_is_trimmed_text :
  (forall (U : UrlLib) shop_url sp r,
      In r (_parse_cards shop_url sp) ->
      exists card name_el,
        In card (select sp product_sel) /\
        select_one card title_sel = Some name_el /\
        Product_Name r = get_text_strip name_el) /\
  (forall (U : UrlLib) shop_url card,
      select_one card title_sel = None -> woo_card_rows shop_url card = []) /\
  (forall (U : UrlLib) sel_name sel_price sel_cat sel_img url cards r,
      In r (generic_cards sel_name sel_price sel_cat sel_img url cards) ->
      exists card name_el,
        In card cards /\
        select_one card sel_name = Some name_el /\
        Product_Name r = get_text_strip name_el) /\
  (forall (U : UrlLib) sel_name sel_price sel_cat sel_img st card,
      select_one card sel_name = None ->
      generic_step sel_name sel_price sel_cat sel_img st card = st) /\
  (forall (U : UrlLib) store_url handle data r,
      shopify_row store_url handle data = Ok r ->
      exists kv, data = JObj kv /\
                 match assoc "title" kv with
                 | None => Product_Name r = EmptyString
                 | Some t => exists s, t = JStr s /\ Product_Name r = strip s
                 end).
Proof.
  split; [|split; [|split; [|split]]].
  - intros U shop_url sp r Hin.
    apply in_parse_cards in Hin as (card & Hcard & Hr).
    apply woo_card_inv in Hr as (name_el & ? & ? & ? & ? & ? & ? & Hn & _ & _ & _ & _ & _ & ->).
    exists card, name_el. auto.
  - intros U. apply woo_card_no_name.
  - intros U sel_name sel_price sel_cat sel_img url cards r Hin.
    apply in_generic_cards in Hin as (card & u & Hcard & Hr).
    apply generic_card_inv in Hr as (name_el & ? & ? & Hn & _ & _ & Hname & _).
    exists card, name_el. auto.
  - intros U. apply generic_step_no_name.
  - intros U. apply shopify_title.
Qed.

Lemma record_name_is_trimmed_text_witness :
  (exists card name_el,
      In card (select (page_of [woo_li [("class", "product")] " Tea " "5" "/p/tea"])
                      product_sel) /\
      select_one card title_sel = Some name_el /\
      "Tea" = get_text_strip name_el) /\
  woo_card_rows "https://shop.example/store/"
    (Elem "li" [("class", "product")] [Text "Tea"]) = [] /\
  (exists card name_el,
      In card [generic_div " Tea " "5" None] /\
      select_one card dot_title_sel = Some name_el /\
      "Tea" = get_text_strip name_el) /\
  generic_step dot_title_sel dot_amount_sel None None
    ("https://shop.example/catalog/list", []) (Elem "div" [("class", "card")] [])
  = ("https://shop.example/catalog/list", []) /\
  (exists kv, payload " Mug " [] = JObj kv /\
              match assoc "title" kv with
              | None => "Mug" = EmptyString
              | Some t => exists s, t = JStr s /\ "Mug" = strip s
              end).
Proof.
  destruct record_name_is_trimmed_text as (Hwoo & Hnone & Hgen & Hgnone & Hshop).
  split; [|split; [|split; [|split]]].
  - apply (Hwoo cpython_urllib "https://shop.example/store/"
                (page_of [woo_li [("class", "product")] " Tea " "5" "/p/tea"])
                (mkRow "product" "Tea" (Some 5%Q) "https://shop.example/p/tea" (JStr ""))).
    vm_compute. now left.
  - apply (Hnone cpython_urllib). reflexivity.
  - apply (Hgen cpython_urllib dot_title_sel dot_amount_sel None None
                "https://shop.example/catalog/list" [generic_div " Tea " "5" None]
                (mkRow "Uncategorised" "Tea" (Some 5%Q)
                       "https://shop.example/catalog/list" (JStr ""))).
    vm_compute. now left.
  - apply (Hgnone cpython_urllib). reflexivity.
  - apply (Hshop cpython_urllib "https://shop.example" "mug" (payload " Mug " [])
                 (mkRow "Uncategorised" "Mug" None "https://shop.example/products/mug"
                        (JStr ""))).
    reflexivity.
Defined.

(** ** Categories of the emitted rows *)

Lemma tokens_nonempty (s w : string) : In w (tokens s) -> w <> EmptyString.
Proof.
  unfold tokens. rewrite filter_In. intros [_ H].
  apply is_empty_false. now destruct (is_empty w).
Qed.

Lemma select_matches (root : node) (sel : selector) (n : node) :
  In n (select root sel) -> matches sel n = true.
Proof. unfold select. rewrite filter_In. tauto. Qed.

(** A card matched by [li.product] has a class attribute, and its first
    token is not empty. *)
Lemma product_card_class (card : node) :
  matches product_sel card = true ->
  exists c cl, class_list card = Some (c :: cl) /\ c <> EmptyString.
Proof.
  unfold matches, product_sel, matches_compound. cbn [existsb forallb].
  rewrite orb_false_r, andb_true_r.
  intros H. apply andb_prop in H as [_ H]. apply andb_prop in H as [_ H].
  unfold matches_simple in H. destruct card as [t a k|s]; [|discriminate].
  unfold class_list in *. destruct (attr (Elem t a k) "class") as [v|]; [|discriminate].
  cbn [option_map] in *. destruct (tokens v) as [|c cl] eqn:E; [discriminate|].
  exists c, cl. split; [reflexivity|].
  apply (tokens_nonempty v). rewrite E. now left.
Qed.

Lemma woo_category_inv (card : node) (c : string) (cl : list string) (cat : string) :
  class_list card = Some (c :: cl) ->
  woo_category card = Ok cat ->
  cat = match attr card "data-product_cat" with
        | Some d => if is_empty d then c else d
        | None => c
        end.
Proof.
  unfold woo_category. intros ->.
  destruct (attr card "data-product_cat") as [d|]; cbn.
  - destruct (is_empty d); cbn; congruence.
  - congruence.
Qed.

(** C6. When no category can be read, the category is the sentinel
    ["Uncategorised"]: for the Shopify adapter when the payload has no
    [type] field, for the generic adapter when no category selector is
    given or it matches nothing in the card.  For the WooCommerce adapter
    the case does not arise: a card matched by [li.product] always has a
    class token, the category is the data attribute when that is not blank
    and the first class token otherwise, and it is never the empty
    string. *)
Theorem category_default_is_sentinel :
  (forall (U : UrlLib) shop_url sp r,
      In r (_parse_cards shop_url sp) ->
      exists card c cl,
        In card (select sp product_sel) /\
        class_list card = Some (c :: cl) /\
        Category r = match attr card "data-product_cat" with
                     | Some d => if is_empty d then c else d
                     | None => c
                     end /\
        Category r <> EmptyString) /\
  (forall (U : UrlLib) store_url handle kv r,
      assoc "type" kv = None ->
      shopify_row store_url handle (JObj kv) = Ok r ->
      Category r = "Uncategorised") /\
  (forall (U : UrlLib) sel_name sel_price sel_cat sel_img url card r,
      generic_card sel_name sel_price sel_cat sel_img url card = Ok (Some r) ->
      match sel_cat with
      | Some s => select_one card s
      | None => None
      end = None ->
      Category r = "Uncategorised").
Proof.
  split; [|split].
  - intros U shop_url sp r Hin.
    apply in_parse_cards in Hin as (card & Hcard & Hr).
    apply woo_card_inv in Hr as (? & ? & ? & ? & ? & ? & cat & _ & _ & _ & _ & _ & Hcat & ->).
    destruct (product_card_class card (select_matches _ _ _ Hcard)) as (c & cl & Hcl & Hc).
    exists card, c, cl. cbn [Category].
    rewrite (woo_category_inv card c cl cat Hcl Hcat).
    repeat split; try assumption.
    destruct (attr card "data-product_cat") as [d|]; [|assumption].
    destruct (is_empty d) eqn:E; [assumption | now apply is_empty_false].
  - intros U store_url handle kv r Hty H.
    apply shopify_row_inv in H as (t & c & variants & _ & _ & Hc & Hs & _).
    simpl in Hc. rewrite Hty in Hc. injection Hc as <-.
    cbv [py_strip] in Hs. injection Hs as Hs. rewrite <- Hs. reflexivity.
  - intros U sel_name sel_price sel_cat sel_img url card r H Hnone.
    apply generic_card_inv in H as (? & ? & ? & _ & _ & _ & _ & _ & Hcat & _).
    now rewrite Hnone in Hcat.
Qed.

Lemma category_default_is_sentinel_witness :
  (exists card c cl,
      In card (select (page_of [woo_li [("class", "product sale")] "Tea" "5" "/p/tea"])
                      product_sel) /\
      class_list card = Some (c :: cl) /\
      "product" = match attr card "data-product_cat" with
                  | Some d => if is_empty d then c else d
                  | None => c
                  end /\
      "product" <> EmptyString) /\
  Category (mkRow "Uncategorised" "Mug" None "https://shop.example/products/mug" (JStr ""))
  = "Uncategorised" /\
  Category (mkRow "Uncategorised" "Tea" (Some 5%Q) "https://shop.example/catalog/list"
                  (JStr ""))
  = "Uncategorised".
Proof.
  destruct category_default_is_sentinel as (Hwoo & Hshop & Hgen).
  split; [|split].
  - apply (Hwoo cpython_urllib "https://shop.example/store/"
                (page_of [woo_li [("class", "product sale")] "Tea" "5" "/p/tea"])
                (mkRow "product" "Tea" (Some 5%Q) "https://shop.example/p/tea" (JStr ""))).
    vm_compute. now left.
  - apply (Hshop cpython_urllib "https://shop.example" "mug"
                 [("title", JStr "Mug"); ("variants", JArr [])]); reflexivity.
  - apply (Hgen cpython_urllib dot_title_sel dot_amount_sel
                (Some [[SClass "category"]]) None
                "https://shop.example/catalog/list" (generic_div "Tea" "5" None));
      reflexivity.
Defined.

(** ** URLs of the generic adapter *)

Section GenericUrl.
Context {U : UrlLib}.
Variables (sel_name sel_price : selector) (sel_cat sel_img : option selector).

Lemma generic_fold_rows (cards : list node) :
  forall (u : string) (rows : list row),
    snd (fold_left (generic_step sel_name sel_price sel_cat sel_img) cards (u, rows))
    = rows ++ snd (fold_left (generic_step sel_name sel_price sel_cat sel_img) cards (u, [])).
Proof.
  induction cards as [|card cards IH]; intros u rows; simpl.
  - now rewrite app_nil_r.
  - unfold generic_step at 2 4. simpl.
    destruct (generic_card sel_name sel_price sel_cat sel_img u card) as [[r|]|e]; simpl.
    + rewrite (IH (URL r) (rows ++ [r])), (IH (URL r) [r]). now rewrite <- app_assoc.
    + apply IH.
    + apply IH.
Qed.

(** The pass, card by card: an emitted row hands its URL to the cards
    after it as the value of [url]. *)
Lemma generic_cards_cons (url : string) (card : node) (cards : list node) :
  generic_cards sel_name sel_price sel_cat sel_img url (card :: cards)
  = match generic_card sel_name sel_price sel_cat sel_img url card with
    | Ok (Some r) => r :: generic_cards sel_name sel_price sel_cat sel_img (URL r) cards
    | Ok None => generic_cards sel_name sel_price sel_cat sel_img url cards
    | Raise _ => generic_cards sel_name sel_price sel_cat sel_img url cards
    end.
Proof.
  unfold generic_cards. simpl. unfold generic_step at 2. simpl.
  destruct (generic_card sel_name sel_price sel_cat sel_img url card) as [[r|]|e];
    simpl; try reflexivity.
  now rewrite generic_fold_rows.
Qed.
(** A card without an anchor that follows an emitted card gets that card's
    URL. *)
Lemma generic_anchorless_after_emitted (url : string) (first second : node) (r1 r2 : row) :
  generic_card sel_name sel_price sel_cat sel_img url first = Ok (Some r1) ->
  select_one second link_sel = None ->
  generic_card sel_name sel_price sel_cat sel_img (URL r1) second = Ok (Some r2) ->
  generic_cards sel_name sel_price sel_cat sel_img url [first; second] = [r1; r2] /\
  URL r2 = URL r1.
Proof.
  intros H1 Hlink H2. split.
  - rewrite generic_cards_cons, H1, generic_cards_cons, H2. reflexivity.
  - apply generic_card_inv in H2 as (? & ? & ? & _ & _ & _ & _ & _ & _ & Hurl).
    now rewrite Hlink in Hurl.
Qed.
End GenericUrl.

(** C4, at a page of three cards: the first links to [sale/item-a], the
    second has no anchor, the third links to [item-c].  The second row gets
    the first card's URL, not the page URL, and the third link is resolved
    against the first card's URL, not against the page URL. *)
Lemma generic_url_follows_previous_card :
  exists rows,
    scrape_generic dot_title_sel dot_amount_sel None None
      (one_page (page_of [generic_div "A" "5" (Some "sale/item-a");
                          generic_div "B" "6" None;
                          generic_div "C" "7.5" (Some "item-c")]))
      "https://shop.example/catalog/list" div_card_sel = Ok rows /\
    map URL rows = ["https://shop.example/catalog/sale/item-a";
                    "https://shop.example/catalog/sale/item-a";
                    "https://shop.example/catalog/sale/item-c"] /\
    urljoin "https://shop.example/catalog/list" "item-c"
    = "https://shop.example/catalog/item-c".
Proof.
  eexists. split; [vm_compute; reflexivity|]. split; reflexivity.
Qed.

(** ** Failures during a crawl *)

(** C3, at a store listing the handles [mug] and [cup]: when the payload of
    [mug] has a variant without a price, or is not an object, the crawl ends
    with the exception and returns no rows; when fetching the payload of
    [mug] fails instead, [mug] alone is skipped. *)
Lemma shopify_malformed_payload_ends_crawl :
  scrape_shopify
    (shop_web ["mug"; "cup"]
       [("https://shop.example/products/mug.js",
         Ok (JObj [("title", JStr "Mug"); ("variants", JArr [JObj [("id", JNum 1)]])]));
        ("https://shop.example/products/cup.js", Ok (payload "Cup" [19900%Q; 24900%Q]))])
    "https://shop.example" = Raise ExtractError /\
  scrape_shopify
    (shop_web ["mug"; "cup"]
       [("https://shop.example/products/mug.js", Ok (JArr []));
        ("https://shop.example/products/cup.js", Ok (payload "Cup" [19900%Q; 24900%Q]))])
    "https://shop.example" = Raise ExtractError /\
  scrape_shopify
    (shop_web ["mug"; "cup"]
       [("https://shop.example/products/mug.js", Raise TransportError);
        ("https://shop.example/products/cup.js", Ok (payload "Cup" [19900%Q; 24900%Q]))])
    "https://shop.example"
  = Ok [mkRow "Uncategorised" "Cup" (Some (19900 / 100)%Q)
              "https://shop.example/products/cup" (JStr "")].
Proof.
  split; [|split]; vm_compute; reflexivity.
Qed.


Section CrawlFacts.
Context {U : UrlLib}.
Variable W : web.

Lemma woo_page_step (shop_url : string) (st : list row * list (Z * exn)) (p : Z) :
  woo_page W shop_url st p
  = (fst st ++ page_rows W shop_url p, snd st ++ page_report W shop_url p).
Proof.
  unfold woo_page, page_rows, page_report.
  destruct (get_soup W Lxml (_next_page_url shop_url p)); now rewrite app_nil_r.
Qed.

Lemma woo_pages_fold (shop_url : string) (ps : list Z) :
  forall rows log,
    fold_left (woo_page W shop_url) ps (rows, log)
    = (rows ++ flat_map (page_rows W shop_url) ps,
       log ++ flat_map (page_report W shop_url) ps).
Proof.
  induction ps as [|p ps IH]; intros rows log; cbn [fold_left flat_map].
  - now rewrite !app_nil_r.
  - rewrite woo_page_step. cbn [fst snd]. rewrite IH. now rewrite <- !app_assoc.
Qed.

(** A payload that is not an object, or that lists a variant without a
    price, makes [shopify_row] raise. *)
Lemma shopify_row_not_object (store_url h : string) (data : json) :
  (forall kv, data <> JObj kv) -> shopify_row store_url h data = Raise ExtractError.
Proof.
  intros H. destruct data as [| | | | |kv]; try reflexivity. now destruct (H kv).
Qed.

Lemma shopify_row_priceless_variant (store_url h : string) (kv : list (string * json))
      (vs : list json) (v : json) (e : exn) :
  assoc "variants" kv = Some (JArr vs) ->
  In v vs -> variant_price v = Raise e ->
  exists e', shopify_row store_url h (JObj kv) = Raise e'.
Proof.
  intros Hv Hin Hraise.
  destruct (shopify_row store_url h (JObj kv)) as [r|e'] eqn:E; [|eauto].
  exfalso. apply shopify_row_inv in E as (_ & _ & variants & _ & _ & _ & _ & Hvar & Hp & _).
  simpl in Hvar. rewrite Hv in Hvar. injection Hvar as <-.
  destruct vs as [|v0 vs0]; [contradiction|]. cbn [truthy] in Hp.
  destruct Hp as (q & Hmin & _).
  apply min_price_inv in Hmin as (vs' & ps & _ & _ & Heq & Hps & _).
  injection Heq as <-.
  destruct (mapM_ok_in _ _ _ _ Hps Hin) as (b & Hb). congruence.
Qed.

(** The exception of a malformed payload leaves the loop over the handles:
    the handles after it are not visited and the rows so far are lost. *)
Lemma shopify_handle_malformed (store_url h : string) (data : json) (e : exn)
      (hs1 hs2 : list string) (rows rows' : list row) :
  get_json W (urljoin store_url ("/products/" ++ h ++ ".js")) = Ok data ->
  shopify_row store_url h data = Raise e ->
  foldM (shopify_handle W store_url) hs1 rows = Ok rows' ->
  foldM (shopify_handle W store_url) (hs1 ++ h :: hs2) rows = Raise e.
Proof.
  intros Hfetch Hrow Hpre. rewrite foldM_app, Hpre. cbn [bind foldM].
  unfold shopify_handle at 1. now rewrite Hfetch, Hrow.
Qed.
End CrawlFacts.



(** ** Query strings *)

Lemma all_chars_app (p : ascii -> bool) (a b : string) :
  all_chars p (a ++ b) = all_chars p a && all_chars p b.
Proof.
  induction a as [|c a IH]; simpl; [reflexivity|].
  now rewrite IH, andb_assoc.
Qed.

Lemma replace_char_app (x y : ascii) (a b : string) :
  replace_char x y (a ++ b) = (replace_char x y a ++ replace_char x y b)%string.
Proof. induction a as [|c a IH]; simpl; [reflexivity | now rewrite IH]. Qed.

Lemma append_assoc (a b c : string) : ((a ++ b) ++ c = a ++ (b ++ c))%string.
Proof. induction a as [|x a IH]; simpl; [reflexivity | now rewrite IH]. Qed.

Lemma unquote_plain (c : ascii) (r : string) :
  Ascii.eqb c "%" = false -> unquote (String c r) = String c (unquote r).
Proof.
  intros H. cbn [unquote]. rewrite H. destruct r as [|a [|b r']]; reflexivity.
Qed.

Lemma unquote_escape (a b : ascii) (x y : nat) (r : string) :
  hex_value a = Some x -> hex_value b = Some y ->
  unquote (String "%" (String a (String b r)))
  = String (ascii_of_nat (16 * x + y)) (unquote r).
Proof. intros Ha Hb. cbn [unquote]. rewrite Ha, Hb. reflexivity. Qed.

(** Replaces [f c] by its value when [c] is a concrete character. *)
Ltac eval_at f :=
  match goal with
  | |- context [f ?c] =>
      let v := eval vm_compute in (f c) in
      change (f c) with v
  end.

(** What one character becomes is read back as that character. *)
Lemma unquote_quote_char (c : ascii) (t : string) :
  unquote (replace_char "+" " " (quote_char c) ++ t) = String c (unquote t).
Proof.
  destruct c as [[] [] [] [] [] [] [] []];
    eval_at quote_char; cbn [replace_char Ascii.eqb Bool.eqb append];
    first [ apply unquote_plain; reflexivity
          | erewrite unquote_escape by reflexivity; reflexivity ].
Qed.

Lemma unquote_quote_plus (s : string) :
  unquote (replace_char "+" " " (quote_plus s)) = s.
Proof.
  induction s as [|c s IH]; [reflexivity|].
  cbn [quote_plus]. rewrite replace_char_app, unquote_quote_char. now rewrite IH.
Qed.

(** An encoded character contains neither [&] nor [=] and is not empty. *)
Lemma quote_char_safe (c : ascii) :
  all_chars field_safe (quote_char c) = true /\ is_empty (quote_char c) = false.
Proof.
  destruct c as [[] [] [] [] [] [] [] []]; eval_at quote_char; split; reflexivity.
Qed.

Lemma quote_plus_safe (s : string) : all_chars field_safe (quote_plus s) = true.
Proof.
  induction s as [|c s IH]; [reflexivity|].
  cbn [quote_plus]. rewrite all_chars_app, IH.
  now rewrite (proj1 (quote_char_safe c)).
Qed.

Lemma quote_plus_nonempty (s : string) :
  s <> EmptyString -> is_empty (quote_plus s) = false.
Proof.
  destruct s as [|c s]; [congruence|]. intros _. cbn [quote_plus].
  pose proof (proj2 (quote_char_safe c)) as H.
  destruct (quote_char c); [discriminate | reflexivity].
Qed.

Lemma unquote_nonempty (s : string) : is_empty s = false -> is_empty (unquote s) = false.
Proof.
  destruct s as [|c r]; [discriminate|]. intros _. cbn [unquote].
  destruct r as [|a [|b r']]; try reflexivity.
  destruct (Ascii.eqb c "%"); [|reflexivity].
  destruct (hex_value a), (hex_value b); reflexivity.
Qed.

Lemma replace_char_nonempty (x y : ascii) (s : string) :
  is_empty (replace_char x y s) = is_empty s.
Proof. destruct s; reflexivity. Qed.

Lemma split_by_plain (p : ascii -> bool) (f : string) :
  all_chars (fun c => negb (p c)) f = true -> split_by p f = [f].
Proof.
  induction f as [|c f IH]; simpl; [reflexivity|].
  intros H. apply andb_prop in H as [Hc Hf]. apply negb_true_iff in Hc.
  now rewrite Hc, IH.
Qed.

Lemma split_by_sep (p : ascii -> bool) (f : string) (c : ascii) (rest : string) :
  all_chars (fun c => negb (p c)) f = true -> p c = true ->
  split_by p (f ++ String c rest) = f :: split_by p rest.
Proof.
  intros Hf Hc. induction f as [|d f IH]; simpl.
  - now rewrite Hc.
  - simpl in Hf. apply andb_prop in Hf as [Hd Hf]. apply negb_true_iff in Hd.
    now rewrite Hd, IH.
Qed.

Lemma split_on_join (sep : ascii) (fields : list string) :
  fields <> [] ->
  Forall (fun f => all_chars (fun c => negb (Ascii.eqb c sep)) f = true) fields ->
  split_on sep (join sep fields) = fields.
Proof.
  unfold split_on. induction fields as [|f fields IH]; [congruence|].
  intros _ Hall. inversion Hall as [|? ? Hf Hrest]; subst.
  destruct fields as [|g fields].
  - simpl. now apply split_by_plain.
  - change (join sep (f :: g :: fields))
      with ((f ++ String sep (join sep (g :: fields)))%string).
    rewrite split_by_sep; [|assumption | apply Ascii.eqb_refl].
    f_equal. apply IH; [discriminate | assumption].
Qed.

Lemma quote_plus_no_amp (s : string) :
  all_chars (fun c => negb (Ascii.eqb c "&")) (quote_plus s) = true.
Proof.
  apply (all_chars_weaken field_safe); [|apply quote_plus_safe].
  unfold field_safe. intros c H. now apply andb_prop in H.
Qed.

Lemma quote_plus_no_eq (s : string) :
  all_chars (fun c => negb (Ascii.eqb c "=")) (quote_plus s) = true.
Proof.
  apply (all_chars_weaken field_safe); [|apply quote_plus_safe].
  unfold field_safe. intros c H. now apply andb_prop in H.
Qed.

Lemma parse_field_encode_item (k v : string) :
  v <> EmptyString -> parse_field (encode_item (k, v)) = [(k, v)].
Proof.
  intros Hv. unfold parse_field, encode_item. cbn [fst snd].
  change ("=" ++ quote_plus v)%string with (String "=" (quote_plus v)).
  rewrite partition_present by apply quote_plus_no_eq.
  rewrite (quote_plus_nonempty v Hv).
  rewrite !unquote_quote_plus.
  destruct (quote_plus k); reflexivity.
Qed.

Lemma encode_item_no_amp (kv : string * string) :
  all_chars (fun c => negb (Ascii.eqb c "&")) (encode_item kv) = true.
Proof.
  unfold encode_item. rewrite !all_chars_app, !quote_plus_no_amp. reflexivity.
Qed.

Lemma urlencode_items (d : qdict) : urlencode d = join "&" (map encode_item (items d)).
Proof.
  unfold urlencode, items. f_equal.
  induction d as [|[k vs] d IH]; cbn [flat_map map]; [reflexivity|].
  rewrite map_app, map_map. f_equal. exact IH.
Qed.

(** Reading back what [urlencode] wrote gives the pairs it was given, as
    long as no value is empty. *)
Lemma parse_qsl_urlencode (d : qdict) :
  (forall kv, In kv (items d) -> snd kv <> EmptyString) ->
  parse_qsl (urlencode d) = items d.
Proof.
  rewrite urlencode_items. generalize (items d) as its. intros its Hne.
  unfold parse_qsl. destruct its as [|it its]; [reflexivity|].
  rewrite split_on_join.
  - set (l := it :: its) in *. clearbody l.
    induction l as [|[k v] l IH]; [reflexivity|].
    cbn [map flat_map]. rewrite parse_field_encode_item.
    + simpl. f_equal. apply IH. intros kv Hin. apply Hne. now right.
    + apply (Hne (k, v)). now left.
  - discriminate.
  - apply Forall_forall. intros f Hf. apply in_map_iff in Hf as (kv & <- & _).
    apply encode_item_no_amp.
Qed.

(** *** Dicts in insertion order *)

Lemma dict_append_fresh (d : qdict) (k v : string) :
  ~ In k (map fst d) -> dict_append d k v = d ++ [(k, [v])].
Proof.
  induction d as [|[k' vs] d IH]; simpl; intros Hk; [reflexivity|].
  destruct (String.eqb_spec k k') as [->|Hne]; [tauto|].
  rewrite IH by tauto. reflexivity.
Qed.

Lemma dict_append_last (d : qdict) (k v : string) (l : list string) :
  ~ In k (map fst d) -> dict_append (d ++ [(k, l)]) k v = d ++ [(k, l ++ [v])].
Proof.
  induction d as [|[k' vs] d IH]; simpl; intros Hk.
  - now rewrite String.eqb_refl.
  - destruct (String.eqb_spec k k') as [->|Hne]; [tauto|].
    rewrite IH by tauto. reflexivity.
Qed.

Lemma fold_values (d : qdict) (k : string) (vs l : list string) :
  ~ In k (map fst d) ->
  fold_left add_pair (map (fun v => (k, v)) vs) (d ++ [(k, l)]) = d ++ [(k, l ++ vs)].
Proof.
  intros Hk. revert l. induction vs as [|v vs IH]; intros l; cbn [map fold_left].
  - now rewrite app_nil_r.
  - change (add_pair (d ++ [(k, l)]) (k, v)) with (dict_append (d ++ [(k, l)]) k v).
    rewrite dict_append_last by assumption.
    rewrite IH. now rewrite <- app_assoc.
Qed.

Lemma fold_items (d : qdict) :
  forall acc,
    NoDup (map fst (acc ++ d)) ->
    (forall k vs, In (k, vs) d -> vs <> []) ->
    fold_left add_pair (items d) acc = acc ++ d.
Proof.
  induction d as [|[k vs] d IH]; intros acc Hnd Hne.
  - simpl. now rewrite app_nil_r.
  - change (items ((k, vs) :: d)) with (map (fun v => (k, v)) vs ++ items d).
    rewrite fold_left_app.
    assert (Hk : ~ In k (map fst acc)).
    { rewrite map_app in Hnd. cbn [map fst] in Hnd.
      apply NoDup_remove_2 in Hnd. rewrite in_app_iff in Hnd. tauto. }
    destruct vs as [|v vs]; [now destruct (Hne k [] (or_introl eq_refl))|].
    cbn [map fold_left].
    change (add_pair acc (k, v)) with (dict_append acc k v).
    rewrite dict_append_fresh by assumption.
    rewrite fold_values by assumption. cbn [app].
    rewrite IH.
    + now rewrite <- app_assoc.
    + now rewrite <- app_assoc.
    + intros k' vs' Hin. apply (Hne k' vs'). now right.
Qed.

Lemma parse_qs_items (d : qdict) :
  qdict_ok d -> fold_left add_pair (items d) [] = d.
Proof.
  intros [Hnd Hv]. apply (fold_items d []); [exact Hnd|].
  intros k vs Hin. apply (Hv k vs Hin).
Qed.

Lemma in_dict_append_keys (d : qdict) (k v x : string) :
  In x (map fst (dict_append d k v)) -> x = k \/ In x (map fst d).
Proof.
  induction d as [|[k' vs] d IH]; simpl.
  - intros [<-|[]]. now left.
  - destruct (String.eqb_spec k k') as [->|Hne]; simpl.
    + tauto.
    + intros [H|H]; [tauto|]. apply IH in H. tauto.
Qed.

Lemma in_dict_append (d : qdict) (k v k' : string) (vs' : list string) :
  In (k', vs') (dict_append d k v) ->
  In (k', vs') d \/ vs' = [v] \/ exists vs, In (k', vs) d /\ vs' = vs ++ [v].
Proof.
  induction d as [|[k0 vs0] d IH]; simpl.
  - intros [H|[]]. injection H as <- <-. tauto.
  - destruct (String.eqb_spec k k0) as [->|Hne]; simpl.
    + intros [H|H]; [|tauto]. injection H as <- <-. right. right. eauto.
    + intros [H|H]; [tauto|]. apply IH in H as [H|[H|(vs & H & ->)]]; eauto 6.
Qed.

Lemma dict_append_ok (d : qdict) (k v : string) :
  v <> EmptyString -> qdict_ok d -> qdict_ok (dict_append d k v).
Proof.
  intros Hv [Hnd Hvals]. split.
  - clear Hvals. induction d as [|[k' vs] d IH]; simpl.
    + constructor; [tauto | constructor].
    + simpl in Hnd. inversion Hnd as [|? ? Hk' Hnd']; subst.
      destruct (String.eqb_spec k k') as [->|Hne]; simpl.
      * now constructor.
      * constructor; [|now apply IH].
        intros Hin. apply in_dict_append_keys in Hin as [->|Hin]; tauto.
  - intros k' vs' Hin.
    apply in_dict_append in Hin as [Hin|[->|(vs & Hin & ->)]].
    + now apply (Hvals k' vs').
    + split; [discriminate | intros x [<-|[]]; assumption].
    + destruct (Hvals k' vs Hin) as [_ Hall]. split.
      * now destruct vs.
      * intros x Hx. apply in_app_or in Hx as [Hx|[<-|[]]]; auto.
Qed.

Lemma in_parse_field (f k v : string) : In (k, v) (parse_field f) -> v <> EmptyString.
Proof.
  unfold parse_field. destruct (is_empty f); [intros []|].
  destruct (partition "=" f) as [n [raw|]]; [|intros []].
  destruct (is_empty raw) eqn:E; [intros []|].
  intros [H|[]]. injection H as _ <-.
  apply is_empty_false. apply unquote_nonempty. now rewrite replace_char_nonempty.
Qed.

Lemma in_parse_qsl (qs k v : string) : In (k, v) (parse_qsl qs) -> v <> EmptyString.
Proof.
  unfold parse_qsl. rewrite in_flat_map. intros (f & _ & H). now apply in_parse_field in H.
Qed.

Lemma parse_qs_ok (qs : string) : qdict_ok (parse_qs qs).
Proof.
  unfold parse_qs.
  assert (Hgen : forall l d,
             (forall k v, In (k, v) l -> v <> EmptyString) -> qdict_ok d ->
             qdict_ok (fold_left (fun d nv => dict_append d (fst nv) (snd nv)) l d)).
  { induction l as [|[k v] l IH]; intros d Hl Hd; simpl; [assumption|].
    apply IH.
    - intros k' v' Hin. apply (Hl k' v'). now right.
    - apply dict_append_ok; [|assumption]. apply (Hl k v). now left. }
  apply Hgen.
  - intros k v. apply in_parse_qsl.
  - split; [constructor | intros k vs []].
Qed.

Lemma in_dict_set_keys (d : qdict) (k x : string) (vs : list string) :
  In x (map fst (dict_set d k vs)) -> x = k \/ In x (map fst d).
Proof.
  induction d as [|[k' vs'] d IH]; simpl.
  - intros [<-|[]]. now left.
  - destruct (String.eqb_spec k k') as [->|Hne]; simpl.
    + tauto.
    + intros [H|H]; [tauto|]. apply IH in H. tauto.
Qed.

Lemma in_dict_set (d : qdict) (k k' : string) (vs vs' : list string) :
  In (k', vs') (dict_set d k vs) -> In (k', vs') d \/ (k' = k /\ vs' = vs).
Proof.
  induction d as [|[k0 vs0] d IH]; simpl.
  - intros [H|[]]. injection H as <- <-. tauto.
  - destruct (String.eqb_spec k k0) as [->|Hne]; simpl.
    + intros [H|H]; [|tauto]. injection H as <- <-. tauto.
    + intros [H|H]; [tauto|]. apply IH in H. tauto.
Qed.

Lemma dict_set_ok (d : qdict) (k v : string) :
  v <> EmptyString -> qdict_ok d -> qdict_ok (dict_set d k [v]).
Proof.
  intros Hv [Hnd Hvals]. split.
  - clear Hvals. induction d as [|[k' vs] d IH]; simpl.
    + constructor; [tauto | constructor].
    + simpl in Hnd. inversion Hnd as [|? ? Hk' Hnd']; subst.
      destruct (String.eqb_spec k k') as [->|Hne]; simpl.
      * now constructor.
      * constructor; [|now apply IH].
        intros Hin. apply in_dict_set_keys in Hin as [->|Hin]; tauto.
  - intros k' vs' Hin. apply in_dict_set in Hin as [Hin|[-> ->]].
    + now apply (Hvals k' vs').
    + split; [discriminate | intros x [<-|[]]; assumption].
Qed.


Lemma in_items (d : qdict) (k v : string) :
  In (k, v) (items d) <-> exists vs, In (k, vs) d /\ In v vs.
Proof.
  unfold items. rewrite in_flat_map. split.
  - intros ([k' vs] & Hin & H). cbn [fst snd] in H.
    apply in_map_iff in H as (v' & H & Hv). injection H as -> ->. eauto.
  - intros (vs & Hin & Hv). exists (k, vs). split; [assumption|].
    cbn [fst snd]. apply in_map_iff. eauto.
Qed.

(** Writing a well-formed dict and reading it back gives the same dict. *)
Lemma parse_qs_urlencode (d : qdict) : qdict_ok d -> parse_qs (urlencode d) = d.
Proof.
  intros Hd. unfold parse_qs. rewrite parse_qsl_urlencode.
  - now apply parse_qs_items.
  - intros [k v] Hin. apply in_items in Hin as (vs & Hin & Hv).
    destruct Hd as [_ Hvals]. now apply (proj2 (Hvals k vs Hin)).
Qed.

Lemma str_nonempty (n : Z) : str n <> EmptyString.
Proof.
  unfold str. destruct (Z.to_int n) as [d|d]; simpl.
  - destruct d; discriminate.
  - discriminate.
Qed.





(** * Further properties of the adapters *)

(** ** Page numbers *)

Lemma in_range (a b p : Z) : In p (range a b) <-> (a <= p < b)%Z.
Proof.
  unfold range. rewrite in_map_iff. split.
  - intros (i & <- & Hi). apply in_seq in Hi. lia.
  - intros H. exists (Z.to_nat (p - a)). split; [lia|]. apply in_seq. lia.
Qed.

Lemma digits_of_uint (d : Decimal.uint) :
  all_chars is_digit (NilEmpty.string_of_uint d) = true.
Proof. induction d; cbn [NilEmpty.string_of_uint all_chars]; auto. Qed.

Lemma int_acc_of_uint (l : Decimal.uint) :
  forall acc, int_acc (Zpos acc) (NilEmpty.string_of_uint l) = Zpos (Pos.of_uint_acc l acc).
Proof.
  induction l; intros acc; cbn [NilEmpty.string_of_uint int_acc Pos.of_uint_acc];
    [reflexivity | rewrite <- IHl; f_equal; unfold digit_value;
                   match goal with |- context [nat_of_ascii ?c] =>
                     let v := eval vm_compute in (nat_of_ascii c) in
                     change (nat_of_ascii c) with v end; cbn [Nat.sub Z.of_nat]; lia ..].
Qed.

Lemma int_of_uint (l : Decimal.uint) :
  int_acc 0 (NilEmpty.string_of_uint l) = Z.of_N (Pos.of_uint l).
Proof.
  induction l; cbn [NilEmpty.string_of_uint int_acc Pos.of_uint];
    [reflexivity | exact IHl | apply (int_acc_of_uint l) ..].
Qed.

(** X2. For a page number that is not negative, the text [str] writes is
    purely numeric and [int] reads the number back from it. *)
Theorem int_str_roundtrip (n : Z) :
  (0 <= n)%Z -> isdigit (str n) = true /\ int (str n) = n.
Proof.
  intros Hn. unfold str. destruct n as [|p|p]; [split; reflexivity | | lia].
  cbn [Z.to_int NilZero.string_of_int].
  pose proof (DecimalPos.Unsigned.of_to p) as Hp.
  assert (Hnil : Pos.to_uint p <> Decimal.Nil)
    by (intros E; rewrite E in Hp; discriminate).
  assert (Hs : NilZero.string_of_uint (Pos.to_uint p)
               = NilEmpty.string_of_uint (Pos.to_uint p))
    by (destruct (Pos.to_uint p); [congruence | reflexivity ..]).
  rewrite Hs. split.
  - unfold isdigit. rewrite digits_of_uint, andb_true_r.
    destruct (Pos.to_uint p); [congruence | reflexivity ..].
  - unfold int. rewrite int_of_uint, Hp. reflexivity.
Qed.

Lemma int_str_roundtrip_witness : isdigit (str 42) = true /\ int (str 42) = 42%Z.
Proof. apply (int_str_roundtrip 42). lia. Defined.

Lemma py_max_nonneg (ns : list Z) (n : Z) :
  (0 <= n)%Z -> (0 <= py_max n ns)%Z.
Proof.
  intros Hn. destruct (py_max_spec ns n) as [_ Hle].
  specialize (Hle n (or_introl eq_refl)). lia.
Qed.

(** X1. The page count [_last_page] reports is never negative. *)
Theorem last_page_nonneg (soup : node) : (0 <= _last_page soup)%Z.
Proof.
  unfold _last_page. destruct (pager_nums soup) as [|n ns] eqn:E; [lia|].
  apply py_max_nonneg. unfold pager_nums in E.
  destruct (select_one soup pager_sel) as [pager|]; [|discriminate].
  assert (Hin : In n (map int (filter isdigit (map get_text (find_all "a" pager)))))
    by (rewrite E; now left).
  apply in_map_iff in Hin as (s & <- & _). apply int_nonneg.
Qed.

(** ** The pages of a WooCommerce crawl *)

Section WooPages.
Context {U : UrlLib}.
Variable W : web.

Lemma scrape_woocommerce_ok (shop_url : string) (max_pages : option Z) (first : node) :
  get_soup W Lxml shop_url = Ok first ->
  scrape_woocommerce W shop_url max_pages
  = Ok (_parse_cards shop_url first
        ++ flat_map (page_rows W shop_url) (range 2 (total_pages first max_pages + 1)),
        flat_map (page_report W shop_url) (range 2 (total_pages first max_pages + 1))).
Proof.
  intros Hfirst. unfold scrape_woocommerce. rewrite Hfirst. cbn [bind].
  now rewrite woo_pages_fold.
Qed.

Lemma total_pages_bounds (first : node) (max_pages : option Z) :
  (total_pages first max_pages <= _last_page first)%Z /\
  (forall m, max_pages = Some m -> m <> 0%Z -> (total_pages first max_pages <= m)%Z).
Proof.
  unfold total_pages. destruct max_pages as [m|].
  - destruct (Z.eqb_spec m 0); split; try lia; intros m' [= <-] Hm; lia.
  - split; [lia | discriminate].
Qed.
End WooPages.

(** X3. In a WooCommerce crawl the pages fetched after the first are
    numbered from 2 up to the page count, which is at most the count read
    from the pager and at most a non-zero page limit.  Every row comes from
    a card of the first page or of one of those pages, and the pages
    reported as skipped are exactly those whose fetch raised. *)
Theorem woo_rows_within_page_limit (U : UrlLib) (W : web) (shop_url : string)
        (max_pages : option Z) (first : node) (rows : list row) (log : list (Z * exn)) :
  get_soup W Lxml shop_url = Ok first ->
  scrape_woocommerce W shop_url max_pages = Ok (rows, log) ->
  (total_pages first max_pages <= _last_page first)%Z /\
  (forall m, max_pages = Some m -> m <> 0%Z -> (total_pages first max_pages <= m)%Z) /\
  (forall r, In r rows ->
             In r (_parse_cards shop_url first) \/
             exists p soup,
               (2 <= p <= total_pages first max_pages)%Z /\
               get_soup W Lxml (_next_page_url shop_url p) = Ok soup /\
               In r (_parse_cards shop_url soup)) /\
  (forall p e, In (p, e) log <->
               (2 <= p <= total_pages first max_pages)%Z /\
               get_soup W Lxml (_next_page_url shop_url p) = Raise e).
Proof.
  intros Hfirst Hrun. rewrite (scrape_woocommerce_ok W shop_url max_pages first Hfirst) in Hrun.
  injection Hrun as <- <-.
  destruct (total_pages_bounds first max_pages) as [Hlast Hlimit].
  split; [exact Hlast|]. split; [exact Hlimit|]. split.
  - intros r Hin. apply in_app_or in Hin as [Hin|Hin]; [now left|right].
    apply in_flat_map in Hin as (p & Hp & Hr). apply in_range in Hp.
    unfold page_rows in Hr.
    destruct (get_soup W Lxml (_next_page_url shop_url p)) as [soup|e] eqn:E; [|contradiction].
    exists p, soup. repeat split; try assumption; lia.
  - intros p e. rewrite in_flat_map. split.
    + intros (p' & Hp & Hr). apply in_range in Hp. unfold page_report in Hr.
      destruct (get_soup W Lxml (_next_page_url shop_url p')) as [soup|e'] eqn:E;
        [contradiction|].
      destruct Hr as [[= <- <-]|[]]. split; [lia | assumption].
    + intros [Hp Hfetch]. exists p. split; [apply in_range; lia|].
      unfold page_report. rewrite Hfetch. now left.
Qed.

Lemma woo_rows_within_page_limit_witness :
  (total_pages store_page1 (Some 2%Z) <= 2)%Z /\
  (In (2%Z, TransportError) [(2%Z, TransportError)] <->
   (2 <= 2 <= total_pages store_page1 (Some 2%Z))%Z /\
   get_soup store_web Lxml (_next_page_url "https://shop.example/store/" 2)
   = Raise TransportError).
Proof.
  destruct (woo_rows_within_page_limit
              cpython_urllib store_web "https://shop.example/store/" (Some 2%Z) store_page1
              [mkRow "product" "Tea" (Some 5%Q) "https://shop.example/p/tea" (JStr "")]
              [(2%Z, TransportError)] eq_refl eq_refl)
    as (_ & Hlimit & _ & Hlog).
  split; [apply (Hlimit 2%Z eq_refl); discriminate | apply Hlog].
Defined.



(** ** Cards of a WooCommerce page *)

Lemma select_one_matches (n : node) (sel : selector) (x : node) :
  select_one n sel = Some x -> matches sel x = true.
Proof.
  unfold select_one. destruct (select n sel) as [|y l] eqn:E; [discriminate|].
  intros [= <-]. apply (select_matches n sel). rewrite E. now left.
Qed.

(** An element matched by [tag[a]] carries the attribute [a]. *)
Lemma matches_has_attr (t a : string) (x : node) :
  matches [[SType t; SHasAttr a]] x = true -> exists v, attr x a = Some v.
Proof.
  unfold matches, matches_compound. cbn [existsb forallb].
  rewrite orb_false_r, andb_true_r.
  intros H. apply andb_prop in H as [_ H]. apply andb_prop in H as [_ H].
  unfold matches_simple in H. destruct x as [t' at' k|s']; [|discriminate].
  destruct (attr (Elem t' at' k) a) as [v|]; [eauto | discriminate].
Qed.



(** ** How many rows a pass gives *)

Lemma flat_map_length_le {A B : Type} (f : A -> list B) (l : list A) :
  (forall a, (List.length (f a) <= 1)%nat) ->
  (List.length (flat_map f l) <= List.length l)%nat.
Proof.
  intros Hf. induction l as [|a l IH]; cbn [flat_map List.length]; [lia|].
  rewrite length_app. specialize (Hf a). lia.
Qed.

Lemma generic_fold_length (U : UrlLib) sel_name sel_price sel_cat sel_img
      (cards : list node) :
  forall st,
    (List.length (snd (fold_left (generic_step sel_name sel_price sel_cat sel_img) cards st))
     <= List.length (snd st) + List.length cards)%nat.
Proof.
  induction cards as [|card cards IH]; intros st; cbn [fold_left List.length]; [lia|].
  specialize (IH (generic_step sel_name sel_price sel_cat sel_img st card)).
  destruct (generic_step_rows sel_name sel_price sel_cat sel_img st card)
    as [Heq | (r & _ & Heq)].
  - rewrite Heq in IH. lia.
  - rewrite Heq in IH |- *. cbn [snd] in IH. rewrite length_app in IH.
    cbn [List.length] in IH. lia.
Qed.

(** X6. A pass never gives more rows than there are cards: at most one row
    per [li.product] of a page for the WooCommerce adapter, at most one row
    per selected card for the generic adapter. *)
Theorem at_most_one_row_per_card :
  (forall (U : UrlLib) shop_url sp,
      (List.length (_parse_cards shop_url sp) <= List.length (select sp product_sel))%nat) /\
  (forall (U : UrlLib) sel_name sel_price sel_cat sel_img url cards,
      (List.length (generic_cards sel_name sel_price sel_cat sel_img url cards)
       <= List.length cards)%nat).
Proof.
  split.
  - intros U shop_url sp. unfold _parse_cards. apply flat_map_length_le.
    intros card. unfold woo_card_rows.
    destruct (woo_card shop_url card) as [[r|]|e]; cbn [List.length]; lia.
  - intros U sel_name sel_price sel_cat sel_img url cards. unfold generic_cards.
    apply (generic_fold_length U sel_name sel_price sel_cat sel_img cards (url, [])).
Qed.

(** ** Trimmed text *)

Lemma first_char_lstrip (s : string) (c : ascii) :
  first_char (lstrip s) = Some c -> is_space c = false.
Proof.
  unfold lstrip. induction s as [|a r IH]; cbn [drop_while]; [discriminate|].
  destruct (is_space a) eqn:E; [exact IH|]. cbn [first_char]. now intros [= <-].
Qed.

Lemma first_char_rstrip (s : string) (c : ascii) :
  first_char (rstrip s) = Some c -> first_char s = Some c.
Proof.
  destruct s as [|a r]; cbn [rstrip]; [discriminate|].
  destruct (is_space a && is_empty (rstrip r)); [discriminate | exact (fun H => H)].
Qed.

Lemma last_char_rstrip (s : string) (c : ascii) :
  last_char (rstrip s) = Some c -> is_space c = false.
Proof.
  induction s as [|a r IH]; cbn [rstrip]; [discriminate|].
  destruct (is_space a && is_empty (rstrip r)) eqn:E; [discriminate|].
  destruct (rstrip r) as [|b r'] eqn:Er; cbn [last_char].
  - intros [= <-]. cbn [is_empty] in E. now rewrite andb_true_r in E.
  - exact IH.
Qed.

(** A string with no space at either end. *)
Lemma edge_space_false (s : string) :
  edge_space s = false <->
  (forall c, first_char s = Some c -> is_space c = false) /\
  (forall c, last_char s = Some c -> is_space c = false).
Proof.
  unfold edge_space. rewrite orb_false_iff. split.
  - intros [Hf Hl]. split; intros c Hc; rewrite Hc in *; assumption.
  - intros [Hf Hl]. split.
    + destruct (first_char s) as [c|]; [now apply Hf | reflexivity].
    + destruct (last_char s) as [c|]; [now apply Hl | reflexivity].
Qed.

Lemma strip_edges (s : string) : edge_space (strip s) = false.
Proof.
  apply edge_space_false. unfold strip. split.
  - intros c Hc. apply first_char_rstrip in Hc. now apply first_char_lstrip in Hc.
  - apply last_char_rstrip.
Qed.

Lemma first_char_app (a b : string) :
  a <> EmptyString -> first_char (a ++ b) = first_char a.
Proof. destruct a; [congruence | reflexivity]. Qed.

Lemma last_char_app (a b : string) :
  b <> EmptyString -> last_char (a ++ b) = last_char b.
Proof.
  intros Hb. induction a as [|c a IH]; [reflexivity|].
  cbn [append last_char]. destruct (a ++ b)%string eqn:E; [|exact IH].
  destruct a; [cbn in E; congruence | discriminate].
Qed.

Lemma concat_nonempty (x : string) (l : list string) :
  x <> EmptyString -> String.concat "" (x :: l) <> EmptyString.
Proof.
  intros Hx. cbn [String.concat]. destruct l; [assumption|].
  destruct x; [congruence | discriminate].
Qed.

(** Pieces without a space at their ends, none of them empty, join into a
    string without a space at its ends. *)
Lemma concat_edges (l : list string) :
  (forall p, In p l -> p <> EmptyString /\ edge_space p = false) ->
  edge_space (String.concat "" l) = false.
Proof.
  intros Hl. apply edge_space_false. split.
  - destruct l as [|x l]; [discriminate|].
    destruct (Hl x (or_introl eq_refl)) as [Hx Hedge].
    apply edge_space_false in Hedge as [Hf _].
    intros c. cbn [String.concat]. destruct l; [apply Hf|].
    cbn [append]. rewrite first_char_app by assumption. apply Hf.
  - induction l as [|x l IH]; [discriminate|].
    destruct (Hl x (or_introl eq_refl)) as [Hx Hedge].
    apply edge_space_false in Hedge as [_ Hlast].
    destruct l as [|y l]; [exact Hlast|].
    intros c. change (String.concat "" (x :: y :: l))
      with (x ++ ("" ++ String.concat "" (y :: l)))%string.
    cbn [append]. rewrite last_char_app.
    + apply IH. intros p Hp. apply Hl. now right.
    + apply concat_nonempty. apply (Hl y). right. now left.
Qed.

Lemma get_text_strip_edges (n : node) : edge_space (get_text_strip n) = false.
Proof.
  unfold get_text_strip. apply concat_edges.
  intros p Hp. apply filter_In in Hp as [Hin Hne].
  apply in_map_iff in Hin as (s & <- & _). split.
  - apply is_empty_false. now destruct (is_empty (strip s)).
  - apply strip_edges.
Qed.

(** X7. No emitted name begins or ends with a character [strip] removes,
    whichever adapter emits it; the same holds for the category of a row of
    the generic and of the Shopify adapter. *)
Theorem names_have_no_edge_space :
  (forall (U : UrlLib) shop_url sp r,
      In r (_parse_cards shop_url sp) -> edge_space (Product_Name r) = false) /\
  (forall (U : UrlLib) sel_name sel_price sel_cat sel_img url cards r,
      In r (generic_cards sel_name sel_price sel_cat sel_img url cards) ->
      edge_space (Product_Name r) = false /\ edge_space (Category r) = false) /\
  (forall (U : UrlLib) store_url handle data r,
      shopify_row store_url handle data = Ok r ->
      edge_space (Product_Name r) = false /\ edge_space (Category r) = false).
Proof.
  split; [|split].
  - intros U shop_url sp r Hin.
    apply in_parse_cards in Hin as (card & _ & Hr).
    apply woo_card_inv in Hr as (n & ? & ? & ? & ? & ? & ? & _ & _ & _ & _ & _ & _ & ->).
    apply get_text_strip_edges.
  - intros U sel_name sel_price sel_cat sel_img url cards r Hin.
    apply in_generic_cards in Hin as (card & u & _ & Hr).
    apply generic_card_inv in Hr as (n & ? & ? & _ & _ & _ & -> & _ & -> & _).
    split; [apply get_text_strip_edges|].
    destruct (match sel_cat with Some s => select_one card s | None => None end);
      [apply get_text_strip_edges | reflexivity].
  - intros U store_url handle data r H.
    apply shopify_row_inv in H as (t & c & _ & _ & Ht & _ & Hc & _).
    destruct t; try discriminate. destruct c; try discriminate.
    cbn [py_strip] in Ht, Hc. injection Ht as <-. injection Hc as <-.
    split; apply strip_edges.
Qed.

Lemma names_have_no_edge_space_witness :
  edge_space "Tea" = false /\
  (edge_space "Tea" = false /\ edge_space "Uncategorised" = false) /\
  (edge_space "Mug" = false /\ edge_space "Uncategorised" = false).
Proof.
  destruct names_have_no_edge_space as (Hwoo & Hgen & Hshop).
  split; [|split].
  - apply (Hwoo cpython_urllib "https://shop.example/store/"
                (page_of [woo_li [("class", "product")] " Tea " "5" "/p/tea"])
                (mkRow "product" "Tea" (Some 5%Q) "https://shop.example/p/tea" (JStr ""))).
    vm_compute. now left.
  - apply (Hgen cpython_urllib dot_title_sel dot_amount_sel None None
                "https://shop.example/catalog/list" [generic_div " Tea " "5" None]
                (mkRow "Uncategorised" "Tea" (Some 5%Q)
                       "https://shop.example/catalog/list" (JStr ""))).
    vm_compute. now left.
  - apply (Hshop cpython_urllib "https://shop.example" "mug" (payload " Mug " [])
                 (mkRow "Uncategorised" "Mug" None "https://shop.example/products/mug"
                        (JStr ""))).
    reflexivity.
Defined.

(** ** The generic pass, card by card *)

Section GenericPass.
Context {U : UrlLib}.
Variables (sel_name sel_price : selector) (sel_cat sel_img : option selector).

Lemma generic_card_url (url : string) (card : node) (r : row) :
  generic_card sel_name sel_price sel_cat sel_img url card = Ok (Some r) ->
  (select_one card link_sel = None /\ URL r = url) \/
  (exists l href, select_one card link_sel = Some l /\ attr l "href" = Some href /\
                  URL r = urljoin url href).
Proof.
  intros H. apply generic_card_inv in H as (? & ? & ? & _ & _ & _ & _ & _ & _ & Hurl).
  destruct (select_one card link_sel) as [l|] eqn:Hl; [right | left; auto].
  destruct (matches_has_attr "a" "href" l (select_one_matches _ _ _ Hl)) as (href & Hhref).
  rewrite Hhref in Hurl. eauto.
Qed.

Lemma generic_cards_chain (cards : list node) :
  forall url, url_chain url (generic_cards sel_name sel_price sel_cat sel_img url cards).
Proof.
  induction cards as [|card cards IH]; intros url; [exact I|].
  rewrite generic_cards_cons.
  destruct (generic_card sel_name sel_price sel_cat sel_img url card) as [[r|]|e] eqn:E;
    try apply IH.
  cbn [url_chain]. split; [|apply IH].
  destruct (generic_card_url url card r E) as [[_ H]|(l & href & _ & _ & H)]; eauto.
Qed.

Lemma generic_cards_no_anchor (cards : list node) :
  forall url,
    (forall card, In card cards -> select_one card link_sel = None) ->
    forall r, In r (generic_cards sel_name sel_price sel_cat sel_img url cards) ->
              URL r = url.
Proof.
  induction cards as [|card cards IH]; intros url Hnone r Hin; [contradiction|].
  rewrite generic_cards_cons in Hin.
  assert (Hrest : forall c, In c cards -> select_one c link_sel = None)
    by (intros c Hc; apply Hnone; now right).
  destruct (generic_card sel_name sel_price sel_cat sel_img url card) as [[r'|]|e] eqn:E;
    try (now apply (IH url Hrest)).
  assert (Hurl : URL r' = url).
  { destruct (generic_card_url url card r' E) as [[_ H]|(l & href & Hl & _)]; [exact H|].
    rewrite (Hnone card (or_introl eq_refl)) in Hl. discriminate. }
  destruct Hin as [<-|Hin]; [exact Hurl|].
  rewrite Hurl in Hin. now apply (IH url Hrest).
Qed.
End GenericPass.

(** X8. In a pass of the generic adapter the URL of the first row is the
    page URL or a link resolved against it, and the URL of every later row
    is the URL of the row before it or a link resolved against that URL. *)
Theorem generic_urls_form_a_chain (U : UrlLib) (sel_name sel_price : selector)
        (sel_cat sel_img : option selector) (url : string) (cards : list node) :
  url_chain url (generic_cards sel_name sel_price sel_cat sel_img url cards).
Proof. apply generic_cards_chain. Qed.

(** X9. When no selected card holds an anchor, every row of the generic
    adapter has the page URL as its URL. *)
Theorem generic_without_anchors_uses_page_url (U : UrlLib) (sel_name sel_price : selector)
        (sel_cat sel_img : option selector) (url : string) (cards : list node) (r : row) :
  (forall card, In card cards -> select_one card link_sel = None) ->
  In r (generic_cards sel_name sel_price sel_cat sel_img url cards) ->
  URL r = url.
Proof. intros Hnone. now apply generic_cards_no_anchor. Qed.

Lemma generic_without_anchors_uses_page_url_witness :
  URL (mkRow "Uncategorised" "B" (Some 6%Q) "https://shop.example/catalog/list" (JStr ""))
  = "https://shop.example/catalog/list".
Proof.
  apply (generic_without_anchors_uses_page_url
           cpython_urllib dot_title_sel dot_amount_sel None None
           "https://shop.example/catalog/list"
           [generic_div "A" "5" None; generic_div "B" "6" None]).
  - intros card [<-|[<-|[]]]; reflexivity.
  - vm_compute. right. now left.
Defined.



(** ** Payloads the Shopify adapter accepts *)







(** ** The handles of a Shopify crawl *)

Lemma filter_none {A : Type} (f : A -> bool) (l : list A) :
  (forall x, In x l -> f x = false) -> filter f l = [].
Proof.
  induction l as [|a l IH]; intros H; [reflexivity|].
  cbn [filter]. rewrite (H a (or_introl eq_refl)). apply IH.
  intros x Hx. apply H. now right.
Qed.

Section ShopifyCrawl.
Context {U : UrlLib}.
Variable W : web.

Lemma shopify_handles_rows (store_url : string) (hs : list string) :
  forall rows0 rows r,
    foldM (shopify_handle W store_url) hs rows0 = Ok rows ->
    In r rows ->
    In r rows0 \/
    exists h data,
      In h hs /\
      get_json W (urljoin store_url ("/products/" ++ h ++ ".js")) = Ok data /\
      shopify_row store_url h data = Ok r.
Proof.
  induction hs as [|h hs IH]; intros rows0 rows r Hrun Hin.
  - cbn [foldM] in Hrun. injection Hrun as <-. now left.
  - cbn [foldM] in Hrun. apply bind_ok in Hrun as (rows1 & Hstep & Hrun).
    destruct (IH rows1 rows r Hrun Hin) as [Hin1 | (h' & data & Hh & Hfetch & Hrow)].
    + unfold shopify_handle in Hstep.
      destruct (get_json W (urljoin store_url ("/products/" ++ h ++ ".js")))
        as [data|e] eqn:Hfetch.
      * apply bind_ok in Hstep as (r' & Hrow & Hstep). injection Hstep as <-.
        apply in_app_or in Hin1 as [Hin1|[<-|[]]]; [now left|].
        right. exists h, data. repeat split; try assumption. now left.
      * injection Hstep as <-. now left.
    + right. exists h', data. repeat split; try assumption. now right.
Qed.

Lemma shopify_sitemaps_rows (store_url : string) (sms : list string) :
  forall rows0 rows r,
    foldM (shopify_sitemap W store_url) sms rows0 = Ok rows ->
    In r rows ->
    In r rows0 \/
    exists sm hs h data,
      In sm sms /\ _extract_handles W sm = Ok hs /\ In h hs /\
      get_json W (urljoin store_url ("/products/" ++ h ++ ".js")) = Ok data /\
      shopify_row store_url h data = Ok r.
Proof.
  induction sms as [|sm sms IH]; intros rows0 rows r Hrun Hin.
  - cbn [foldM] in Hrun. injection Hrun as <-. now left.
  - cbn [foldM] in Hrun. apply bind_ok in Hrun as (rows1 & Hstep & Hrun).
    destruct (IH rows1 rows r Hrun Hin)
      as [Hin1 | (sm' & hs & h & data & Hsm & Hhs & Hh & Hfetch & Hrow)].
    + unfold shopify_sitemap in Hstep. apply bind_ok in Hstep as (hs & Hhs & Hstep).
      destruct (shopify_handles_rows store_url hs rows0 rows1 r Hstep Hin1)
        as [H0 | (h & data & Hh & Hfetch & Hrow)]; [now left|].
      right. exists sm, hs, h, data. repeat split; try assumption. now left.
    + right. exists sm', hs, h, data. repeat split; try assumption. now right.
Qed.

End ShopifyCrawl.

(** X12. Every row of a Shopify crawl comes from a handle listed in one of
    the store's product sitemaps: the payload of that handle was fetched,
    the row was built from it, and its URL is [/products/<handle>] resolved
    against the store URL. *)
Theorem shopify_rows_come_from_handles (U : UrlLib) (W : web) (store_url : string)
        (rows : list row) (r : row) :
  scrape_shopify W store_url = Ok rows ->
  In r rows ->
  exists sm hs h data,
    contains "sitemap_products" sm = true /\
    _extract_handles W sm = Ok hs /\ In h hs /\
    get_json W (urljoin store_url ("/products/" ++ h ++ ".js")) = Ok data /\
    shopify_row store_url h data = Ok r /\
    URL r = urljoin store_url ("/products/" ++ h).
Proof.
  intros Hrun Hin. unfold scrape_shopify in Hrun.
  apply bind_ok in Hrun as (sms & Hsms & Hrun).
  destruct (shopify_sitemaps_rows W store_url sms [] rows r Hrun Hin)
    as [[] | (sm & hs & h & data & Hsm & Hhs & Hh & Hfetch & Hrow)].
  exists sm, hs, h, data. repeat split; try assumption.
  - unfold _find_sitemaps in Hsms. apply bind_ok in Hsms as (soup & _ & Hsms).
    injection Hsms as <-. apply filter_In in Hsm. tauto.
  - apply shopify_row_inv in Hrow. destruct Hrow as (_ & _ & _ & _ & _ & _ & _ & _ & _ & Hurl).
    exact Hurl.
Qed.

Lemma shopify_rows_come_from_handles_witness :
  exists sm hs h data,
    contains "sitemap_products" sm = true /\
    _extract_handles
      (shop_web ["cup"] [("https://shop.example/products/cup.js",
                          Ok (payload "Cup" [19900%Q]))]) sm = Ok hs /\
    In h hs /\
    get_json
      (shop_web ["cup"] [("https://shop.example/products/cup.js",
                          Ok (payload "Cup" [19900%Q]))])
      (urljoin "https://shop.example" ("/products/" ++ h ++ ".js")) = Ok data /\
    shopify_row "https://shop.example" h data
    = Ok (mkRow "Uncategorised" "Cup" (Some (19900 / 100)%Q)
                "https://shop.example/products/cup" (JStr "")) /\
    "https://shop.example/products/cup" = urljoin "https://shop.example" ("/products/" ++ h).
Proof.
  apply (shopify_rows_come_from_handles
           cpython_urllib
           (shop_web ["cup"] [("https://shop.example/products/cup.js",
                               Ok (payload "Cup" [19900%Q]))])
           "https://shop.example"
           [mkRow "Uncategorised" "Cup" (Some (19900 / 100)%Q)
                  "https://shop.example/products/cup" (JStr "")]
           (mkRow "Uncategorised" "Cup" (Some (19900 / 100)%Q)
                  "https://shop.example/products/cup" (JStr ""))).
  - vm_compute. reflexivity.
  - now left.
Defined.

(** X13. A store whose sitemap index names no product sitemap gives an
    empty result, whatever else the store serves. *)
Theorem shopify_without_product_sitemaps (U : UrlLib) (W : web) (store_url : string)
        (soup : node) :
  get_soup W Xml (urljoin store_url "/sitemap.xml") = Ok soup ->
  (forall loc, In loc (find_all "loc" soup) ->
               contains "sitemap_products" (get_text loc) = false) ->
  scrape_shopify W store_url = Ok [] /\ _find_sitemaps W store_url = Ok [].
Proof.
  intros Hfetch Hnone.
  assert (Hsms : _find_sitemaps W store_url = Ok []).
  { unfold _find_sitemaps. rewrite Hfetch. cbn [bind]. rewrite filter_none; [reflexivity|].
    intros x Hx. apply in_map_iff in Hx as (loc & <- & Hloc). now apply Hnone. }
  split; [|exact Hsms]. unfold scrape_shopify. now rewrite Hsms.
Qed.

Lemma shopify_without_product_sitemaps_witness :
  scrape_shopify
    (one_page (Elem "sitemapindex" []
                 [Elem "sitemap" []
                    [Elem "loc" [] [Text "https://shop.example/sitemap_pages_1.xml"]]]))
    "https://shop.example" = Ok [].
Proof.
  apply (shopify_without_product_sitemaps
           cpython_urllib
           (one_page (Elem "sitemapindex" []
                        [Elem "sitemap" []
                           [Elem "loc" [] [Text "https://shop.example/sitemap_pages_1.xml"]]]))
           "https://shop.example"
           (Elem "sitemapindex" []
                 [Elem "sitemap" []
                    [Elem "loc" [] [Text "https://shop.example/sitemap_pages_1.xml"]]])
           eq_refl).
  intros loc [<-|[]]. reflexivity.
Defined.



(** ** Handles *)

Lemma split_by_nonnil (p : ascii -> bool) (s : string) : split_by p s <> [].
Proof.
  destruct s as [|c s]; cbn [split_by]; [discriminate|].
  destruct (p c); [discriminate|]. destruct (split_by p s); discriminate.
Qed.

Lemma split_by_app (p : ascii -> bool) (a : string) (c : ascii) (b : string) :
  p c = true -> split_by p (a ++ String c b) = split_by p a ++ split_by p b.
Proof.
  intros Hc. induction a as [|d a IH]; cbn [append split_by].
  - now rewrite Hc.
  - rewrite IH. destruct (p d); [reflexivity|].
    pose proof (split_by_nonnil p a) as Hne.
    destruct (split_by p a); [congruence | reflexivity].
Qed.

Lemma last_snoc {A : Type} (l : list A) (x d : A) : last (l ++ [x]) d = x.
Proof.
  induction l as [|a l IH]; [reflexivity|].
  cbn [app last]. destruct (l ++ [x]) eqn:E; [|exact IH].
  destruct l; discriminate.
Qed.

(** X15. The handle taken from a sitemap entry is the text after its last
    slash, and a slash closing the entry is ignored: an entry
    [<dir>/<h>] or [<dir>/<h>/] gives [h], for any [h] without a slash
    other than the empty text and a lone dot. *)
Theorem handle_is_last_path_segment (dir h : string) :
  all_chars (fun c => negb (Ascii.eqb c "/")) h = true ->
  h <> EmptyString -> h <> "." ->
  path_name (dir ++ String "/" h) = h /\
  path_name (dir ++ String "/" (h ++ "/")) = h.
Proof.
  intros Hplain Hne Hdot.
  assert (Hkeep : negb (is_empty h) && negb (String.eqb h ".") = true).
  { apply andb_true_intro. split.
    - apply negb_true_iff. now apply is_empty_false.
    - apply negb_true_iff. now apply String.eqb_neq. }
  unfold path_name, split_on. split.
  - rewrite split_by_app by reflexivity. rewrite (split_by_plain _ h Hplain).
    rewrite filter_app. cbn [filter]. rewrite Hkeep. apply last_snoc.
  - rewrite split_by_app by reflexivity. rewrite (split_by_app _ h "/" "") by reflexivity.
    rewrite (split_by_plain _ h Hplain). rewrite !filter_app. cbn [filter split_by is_empty negb andb].
    rewrite Hkeep. rewrite app_nil_r. apply last_snoc.
Qed.

Lemma handle_is_last_path_segment_witness :
  path_name ("https://shop.example/products" ++ String "/" "red-shirt") = "red-shirt" /\
  path_name ("https://shop.example/products" ++ String "/" ("red-shirt" ++ "/"))
  = "red-shirt".
Proof.
  apply (handle_is_last_path_segment "https://shop.example/products" "red-shirt");
    [reflexivity | discriminate | discriminate].
Defined.

(** ** Price texts that begin with punctuation *)

Lemma punctuation_is_price_char (s : string) :
  all_chars punctuation s = true -> all_chars price_char s = true.
Proof.
  apply all_chars_weaken. unfold punctuation, price_char. intros c H.
  apply orb_prop in H as [H|H]; rewrite H; [rewrite orb_true_r|]; now rewrite ?orb_true_r.
Qed.

Lemma dots_not_digits (s : string) :
  all_chars (fun c => Ascii.eqb c ".") s = true -> isdigit s = false.
Proof.
  destruct s as [|c s]; [reflexivity|]. cbn [all_chars]. intros H.
  apply andb_prop in H as [Hc _]. apply Ascii.eqb_eq in Hc. subst c. reflexivity.
Qed.

Lemma remove_commas_leaves_dots (s : string) :
  all_chars punctuation s = true ->
  all_chars (fun c => Ascii.eqb c ".") (remove_char "," s) = true.
Proof.
  induction s as [|c s IH]; [reflexivity|]. cbn [all_chars remove_char]. intros H.
  apply andb_prop in H as [Hc Hs]. unfold punctuation in Hc.
  destruct (Ascii.eqb c ",") eqn:E; [now apply IH|].
  cbn [orb] in Hc. cbn [all_chars]. now rewrite Hc, IH.
Qed.

Lemma float_of_dots (s : string) :
  all_chars (fun c => Ascii.eqb c ".") s = true -> float s = Raise ExtractError.
Proof.
  intros H. unfold float. destruct s as [|c s]; [reflexivity|].
  cbn [all_chars] in H. apply andb_prop in H as [Hc Hs].
  apply Ascii.eqb_eq in Hc. subst c. cbn [partition]. rewrite Ascii.eqb_refl.
  cbn [append]. now rewrite (dots_not_digits s Hs).
Qed.

(** X16. When the first run of digits, commas and dots in a price text
    holds no digit, the text gives no price, whatever follows the run: a
    number further on is not looked for, and the card is skipped by both
    adapters. *)
Theorem punctuation_before_number_gives_no_price :
  (forall pre run post,
      all_chars (fun c => negb (price_char c)) pre = true ->
      run <> EmptyString ->
      all_chars punctuation run = true ->
      ends_run price_char post ->
      price_of_text (pre ++ run ++ post) = Raise ExtractError) /\
  (forall (U : UrlLib) shop_url card price_el pre run post,
      select_one card price_sel = Some price_el ->
      get_text price_el = (pre ++ run ++ post)%string ->
      all_chars (fun c => negb (price_char c)) pre = true ->
      run <> EmptyString ->
      all_chars punctuation run = true ->
      ends_run price_char post ->
      woo_card_rows shop_url card = []) /\
  (forall (U : UrlLib) sel_name sel_price sel_cat sel_img st card price_el pre run post,
      select_one card sel_price = Some price_el ->
      get_text price_el = (pre ++ run ++ post)%string ->
      all_chars (fun c => negb (price_char c)) pre = true ->
      run <> EmptyString ->
      all_chars punctuation run = true ->
      ends_run price_char post ->
      generic_step sel_name sel_price sel_cat sel_img st card = st).
Proof.
  assert (Hprice : forall pre run post,
             all_chars (fun c => negb (price_char c)) pre = true ->
             run <> EmptyString ->
             all_chars punctuation run = true ->
             ends_run price_char post ->
             price_of_text (pre ++ run ++ post) = Raise ExtractError).
  { intros pre run post Hpre Hne Hrun Hpost. unfold price_of_text.
    rewrite (re_search_price_run pre run post Hpre Hne
                                 (punctuation_is_price_char run Hrun) Hpost).
    apply float_of_dots. now apply remove_commas_leaves_dots. }
  split; [exact Hprice|]. split.
  - intros U shop_url card price_el pre run post Hsel Htext Hpre Hne Hrun Hpost.
    apply (woo_card_bad_price shop_url card price_el ExtractError Hsel).
    rewrite Htext. now apply Hprice.
  - intros U sel_name sel_price sel_cat sel_img st card price_el pre run post
           Hsel Htext Hpre Hne Hrun Hpost.
    apply (generic_step_bad_price sel_name sel_price sel_cat sel_img st card price_el
                                  ExtractError Hsel).
    rewrite Htext. now apply Hprice.
Qed.

Lemma punctuation_before_number_gives_no_price_witness :
  price_of_text ("Rs" ++ "." ++ " 500") = Raise ExtractError /\
  woo_card_rows "https://shop.example/store/"
    (woo_li [("class", "product")] "Tea" "Rs. 500" "/p/tea") = [] /\
  generic_step dot_title_sel dot_amount_sel None None
    ("https://shop.example/catalog/list", []) (generic_div "Tea" "Rs. 500" None)
  = ("https://shop.example/catalog/list", []).
Proof.
  destruct punctuation_before_number_gives_no_price as (Hprice & Hwoo & Hgen).
  split; [|split].
  - apply (Hprice "Rs" "." " 500"); [reflexivity | discriminate | reflexivity | reflexivity].
  - apply (Hwoo cpython_urllib "https://shop.example/store/"
                (woo_li [("class", "product")] "Tea" "Rs. 500" "/p/tea")
                (Elem "span" [("class", "price")] [Text "Rs. 500"]) "Rs" "." " 500");
      [reflexivity | reflexivity | reflexivity | discriminate | reflexivity | reflexivity].
  - apply (Hgen cpython_urllib dot_title_sel dot_amount_sel None None
                ("https://shop.example/catalog/list", [])
                (generic_div "Tea" "Rs. 500" None)
                (Elem "span" [("class", "amount")] [Text "Rs. 500"]) "Rs" "." " 500");
      [reflexivity | reflexivity | reflexivity | discriminate | reflexivity | reflexivity].
Defined.

(** ** The query of a page URL *)

Lemma next_page_url_query (U : UrlLib) (base : string) (num : Z) :
  _next_page_url base num
  = urlunparse (replace_query (urlparse base) (next_page_query (query (urlparse base)) num)).
Proof. reflexivity. Qed.

Lemma next_page_dict_ok (qs : string) (num : Z) :
  qdict_ok (dict_set (parse_qs qs) "paged" [str num]).
Proof. apply dict_set_ok; [apply str_nonempty | apply parse_qs_ok]. Qed.

Lemma parse_qs_next_page_query (qs : string) (num : Z) :
  parse_qs (next_page_query qs num) = dict_set (parse_qs qs) "paged" [str num].
Proof. apply parse_qs_urlencode, next_page_dict_ok. Qed.

Lemma parse_qsl_next_page_query (qs : string) (num : Z) :
  parse_qsl (next_page_query qs num) = items (dict_set (parse_qs qs) "paged" [str num]).
Proof.
  apply parse_qsl_urlencode. intros [k v] Hin.
  apply in_items in Hin as (vs & Hin & Hv).
  destruct (next_page_dict_ok qs num) as [_ Hvals]. now apply (proj2 (Hvals k vs Hin)).
Qed.

Lemma in_dict_set_self (d : qdict) (k : string) (vs : list string) :
  In (k, vs) (dict_set d k vs).
Proof.
  induction d as [|[k' vs'] d IH]; cbn [dict_set]; [now left|].
  destruct (String.eqb_spec k k') as [->|_]; [now left | now right].
Qed.

Lemma dict_set_keys (d : qdict) (k : string) (vs : list string) :
  map fst (dict_set d k vs)
  = if mem k (map fst d) then map fst d else map fst d ++ [k].
Proof.
  unfold mem. induction d as [|[k' vs'] d IH]; [reflexivity|].
  cbn [dict_set map fst existsb]. destruct (String.eqb_spec k k') as [->|Hne].
  - reflexivity.
  - cbn [map fst orb]. rewrite IH. now destruct (existsb (String.eqb k) (map fst d)).
Qed.

Lemma filter_items_key (d : qdict) (k : string) (vs : list string) :
  NoDup (map fst d) -> In (k, vs) d ->
  filter (has_key k) (items d) = map (fun v => (k, v)) vs.
Proof.
  unfold items. induction d as [|[k' vs'] d IH]; intros Hnd Hin; [contradiction|].
  cbn [map fst] in Hnd. inversion Hnd as [|? ? Hk' Hnd']; subst.
  cbn [flat_map fst snd]. rewrite filter_app.
  assert (Hown : forall l, filter (has_key k) (map (fun v => (k', v)) l)
                           = if String.eqb k' k then map (fun v => (k', v)) l else []).
  { induction l as [|v l IHl]; [now destruct (String.eqb k' k)|].
    cbn [map filter]. unfold has_key at 1. cbn [fst]. rewrite IHl.
    now destruct (String.eqb k' k). }
  rewrite Hown. destruct Hin as [[= -> ->]|Hin].
  - rewrite String.eqb_refl. rewrite filter_none; [now rewrite app_nil_r|].
    intros [k0 v0] H0. apply in_flat_map in H0 as ([k1 vs1] & H1 & H2).
    cbn [fst snd] in H2. apply in_map_iff in H2 as (v & [= <- <-] & _).
    unfold has_key. cbn [fst]. apply String.eqb_neq. intros ->.
    apply Hk'. apply in_map_iff. exists (k, vs1). auto.
  - destruct (String.eqb_spec k' k) as [->|_].
    + exfalso. apply Hk'. apply in_map_iff. exists (k, vs). auto.
    + cbn [app]. now apply IH.
Qed.

(** X17. Read back, the query of a page URL holds [paged] exactly once,
    with the page number as its value, however often the base query held
    it.  The keys of the base query keep their order; [paged] keeps its
    place when the base had it and comes last otherwise. *)
Theorem paged_occurs_once (qs : string) (num : Z) :
  filter (has_key "paged") (parse_qsl (next_page_query qs num)) = [("paged", str num)] /\
  map fst (parse_qs (next_page_query qs num))
  = if mem "paged" (map fst (parse_qs qs))
    then map fst (parse_qs qs)
    else map fst (parse_qs qs) ++ ["paged"].
Proof.
  split.
  - rewrite parse_qsl_next_page_query.
    rewrite (filter_items_key _ "paged" [str num]); [reflexivity | |].
    + apply next_page_dict_ok.
    + apply in_dict_set_self.
  - rewrite parse_qs_next_page_query. apply dict_set_keys.
Qed.

Lemma replace_query_twice (p : ParseResult) (q q' : string) :
  replace_query (replace_query p q) q' = replace_query p q'.
Proof. reflexivity. Qed.

Lemma dict_set_twice (d : qdict) (k : string) (vs vs' : list string) :
  dict_set (dict_set d k vs) k vs' = dict_set d k vs'.
Proof.
  induction d as [|[k' vs0] d IH]; cbn [dict_set].
  - now rewrite String.eqb_refl.
  - destruct (String.eqb_spec k k') as [->|Hne]; cbn [dict_set].
    + now rewrite String.eqb_refl.
    + destruct (String.eqb_spec k k'); [contradiction|]. now rewrite IH.
Qed.

(** X18. Building the URL of page [m] from the URL of page [n] gives the
    URL of page [m] built from the base, whenever the URL of page [n]
    parses back into the components it was assembled from. *)
Theorem next_page_url_from_page_url (U : UrlLib) (base : string) (n m : Z) :
  urlparse (_next_page_url base n)
  = replace_query (urlparse base) (next_page_query (query (urlparse base)) n) ->
  _next_page_url (_next_page_url base n) m = _next_page_url base m.
Proof.
  intros Hparse. rewrite (next_page_url_query U (_next_page_url base n) m), Hparse.
  rewrite replace_query_twice. cbn [query replace_query].
  unfold next_page_query at 1. rewrite parse_qs_next_page_query, dict_set_twice.
  reflexivity.
Qed.

Lemma next_page_url_from_page_url_witness :
  _next_page_url (_next_page_url "https://shop.example/store/?min=5&x=a%20b" 2) 3
  = _next_page_url "https://shop.example/store/?min=5&x=a%20b" 3.
Proof.
  apply (next_page_url_from_page_url cpython_urllib
           "https://shop.example/store/?min=5&x=a%20b" 2 3).
  vm_compute. reflexivity.
Defined.

Lemma quote_char_query (c : ascii) : all_chars query_char (quote_char c) = true.
Proof. destruct c as [[] [] [] [] [] [] [] []]; eval_at quote_char; reflexivity. Qed.

Lemma quote_plus_query (s : string) : all_chars query_char (quote_plus s) = true.
Proof.
  induction s as [|c s IH]; [reflexivity|].
  cbn [quote_plus]. now rewrite all_chars_app, quote_char_query, IH.
Qed.

Lemma join_all_chars (p : ascii -> bool) (sep : ascii) (l : list string) :
  p sep = true -> (forall x, In x l -> all_chars p x = true) ->
  all_chars p (join sep l) = true.
Proof.
  intros Hsep. induction l as [|x l IH]; intros Hl; [reflexivity|].
  cbn [join]. destruct l as [|y l]; [apply Hl; now left|].
  rewrite all_chars_app. cbn [all_chars].
  rewrite (Hl x (or_introl eq_refl)), Hsep. cbn [andb].
  apply IH. intros z Hz. apply Hl. now right.
Qed.

(** X19. The query of a page URL is made of unreserved characters, [%],
    [+], [&] and [=] only, whatever characters the base query held. *)
Theorem next_page_query_is_encoded (qs : string) (num : Z) :
  all_chars query_char (next_page_query qs num) = true.
Proof.
  unfold next_page_query. rewrite urlencode_items.
  apply join_all_chars; [reflexivity|].
  intros x Hx. apply in_map_iff in Hx as ([k v] & <- & _).
  unfold encode_item. cbn [fst snd].
  now rewrite !all_chars_app, !quote_plus_query.
Qed.

(** ** Column widths of the workbook *)

Lemma set_column_calls_short (columns : list string) :
  (List.length columns < 5)%nat -> set_column_calls columns = Raise ExtractError.
Proof.
  intros H. destruct columns as [|c0 [|c1 [|c2 [|c3 [|c4 rest]]]]];
    try reflexivity. cbn [List.length] in H. lia.
Qed.

(** X20. The loop of [save_excel] that sets the column widths reads the
    names of the columns 0 to 4: on a frame with fewer than five columns it
    raises, and on a frame with five or more it makes five calls, for the
    columns 0 to 4, passing the currency format exactly for the columns
    named [Price]. *)
Theorem set_column_needs_five_columns (columns : list string) :
  ((List.length columns < 5)%nat -> set_column_calls columns = Raise ExtractError) /\
  ((5 <= List.length columns)%nat ->
   exists calls,
     set_column_calls columns = Ok calls /\
     map (fun c => fst (fst c)) calls = [0; 1; 2; 3; 4]%nat /\
     forall i w b, In (i, w, b) calls ->
                   (b = true <-> nth_error columns i = Some "Price")).
Proof.
  split; [apply set_column_calls_short|].
  intros H. destruct columns as [|c0 [|c1 [|c2 [|c3 [|c4 rest]]]]];
    try (cbn [List.length] in H; lia).
  eexists. split; [reflexivity|]. split; [reflexivity|].
  intros i w b Hin. cbn [In] in Hin.
  destruct Hin as [Hin|[Hin|[Hin|[Hin|[Hin|[]]]]]]; injection Hin as <- <- <-;
    cbn [nth_error]; rewrite String.eqb_eq; split; congruence.
Qed.

Lemma set_column_needs_five_columns_witness :
  set_column_calls ["Category"; "Product Name"; "Price"; "URL"] = Raise ExtractError /\
  exists calls,
    set_column_calls frame_columns = Ok calls /\
    map (fun c => fst (fst c)) calls = [0; 1; 2; 3; 4]%nat.
Proof.
  split.
  - apply (proj1 (set_column_needs_five_columns ["Category"; "Product Name"; "Price"; "URL"])).
    cbn. lia.
  - destruct (proj2 (set_column_needs_five_columns frame_columns)) as (calls & H1 & H2 & _);
      [cbn; lia|].
    exists calls. split; assumption.
Defined.

Lemma filter_drops_member (x : string) (l : list string) :
  In x l ->
  (List.length (filter (fun c => negb (String.eqb c x)) l) < List.length l)%nat.
Proof.
  induction l as [|a l IH]; intros Hin; [contradiction|].
  cbn [filter List.length]. pose proof (filter_length_le (fun c => negb (String.eqb c x)) l).
  destruct (String.eqb_spec a x) as [->|Hne]; cbn [negb List.length].
  - lia.
  - destruct Hin as [->|Hin]; [congruence|]. specialize (IH Hin). lia.
Qed.

(** X21. With [--no-image-col] the frame handed to [save_excel] has lost
    its [Image] column, so the loop over the five widths runs past the last
    column and raises: on the five-column frame of the adapters, or any
    frame of at most five columns that has an [Image] column. *)
Theorem no_image_col_raises_in_save_excel (columns : list string) :
  In "Image" columns ->
  (List.length columns <= 5)%nat ->
  set_column_calls (drop_image true columns) = Raise ExtractError.
Proof.
  intros Hin Hlen. apply set_column_calls_short. unfold drop_image.
  assert (Hmem : mem "Image" columns = true).
  { unfold mem. apply existsb_exists. exists "Image". split; [assumption | reflexivity]. }
  rewrite Hmem. cbn [andb].
  pose proof (filter_drops_member "Image" columns Hin). lia.
Qed.

Lemma no_image_col_raises_in_save_excel_witness :
  set_column_calls (drop_image true frame_columns) = Raise ExtractError.
Proof.
  apply (no_image_col_raises_in_save_excel frame_columns).
  - cbn. tauto.
  - cbn. lia.
Defined.

(** ** Product sitemaps *)

Lemma prefix_spec (a s : string) : prefix a s = true <-> exists b, s = (a ++ b)%string.
Proof.
  revert s. induction a as [|c a IH]; intros s.
  - split; [intros _; now exists s | intros _; destruct s; reflexivity].
  - destruct s as [|d s]; cbn [prefix append].
    + split; [discriminate | intros (b & H); discriminate].
    + destruct (ascii_dec c d) as [->|Hne].
      * rewrite IH. split; intros (b & H); exists b; congruence.
      * split; [discriminate | intros (b & H); congruence].
Qed.

Lemma contains_spec (sub s : string) :
  contains sub s = true <-> exists a b, s = (a ++ sub ++ b)%string.
Proof.
  split.
  - induction s as [|c s IH]; cbn [contains]; intros H.
    + rewrite orb_false_r in H. apply prefix_spec in H as (b & ->). now exists EmptyString, b.
    + apply orb_prop in H as [H|H].
      * apply prefix_spec in H as (b & ->). now exists EmptyString, b.
      * destruct (IH H) as (a & b & ->). now exists (String c a), b.
  - intros (a & b & ->). induction a as [|c a IH].
    + cbn [append]. destruct (sub ++ b)%string eqn:E; cbn [contains]; rewrite <- ?E.
      * rewrite orb_false_r. apply prefix_spec. now exists b.
      * apply orb_true_intro. left. apply prefix_spec. now exists b.
    + cbn [append contains]. rewrite IH. apply orb_true_r.
Qed.

(** X22. The sitemaps a Shopify crawl visits are exactly the texts of the
    index's [loc] entries that contain ["sitemap_products"] somewhere. *)
Theorem product_sitemaps_contain_marker (U : UrlLib) (W : web) (store_url : string)
        (soup : node) :
  get_soup W Xml (urljoin store_url "/sitemap.xml") = Ok soup ->
  exists sms,
    _find_sitemaps W store_url = Ok sms /\
    forall sm,
      In sm sms <->
      (exists loc, In loc (find_all "loc" soup) /\ get_text loc = sm) /\
      (exists a b, sm = (a ++ "sitemap_products" ++ b)%string).
Proof.
  intros Hfetch. unfold _find_sitemaps. rewrite Hfetch. cbn [bind].
  eexists. split; [reflexivity|]. intros sm.
  rewrite filter_In, in_map_iff, contains_spec.
  split; intros [(loc & H1 & H2) Hm]; (split; [exists loc; tauto | exact Hm]).
Qed.

Lemma product_sitemaps_contain_marker_witness :
  exists sms,
    _find_sitemaps (shop_web [] []) "https://shop.example" = Ok sms /\
    In "https://shop.example/sitemap_products_1.xml" sms.
Proof.
  destruct (product_sitemaps_contain_marker
              cpython_urllib (shop_web [] []) "https://shop.example" sitemap_index eq_refl)
    as (sms & Hsms & Hin).
  exists sms. split; [assumption|]. apply Hin. split.
  - eexists. split; [vm_compute; left; reflexivity | reflexivity].
  - exists "https://shop.example/", "_1.xml". reflexivity.
Defined.
